(* ===== verification/_CoqProject ===== *)
-Q . S2P
Prelude.v
Decimal.v
PyJson.v
JsonText.v
Ticker.v
Csv.v
Report.v
Interleave.v
Scheduler.v
