(* ===== verification/Prelude.v ===== *)
(** * A verification development of binance_scraping_bot (src/main.py)

    ** The program
    [src/main.py] is one class, [TradeDataProcessor], with four parts
    that share the object's attributes:
    - the tick handler [on_message] (lines 101-123), called by the
      websocket library for every message of the Binance ticker stream:
      it reads the last price ["c"] and the cumulative volume ["v"],
      derives a volume delta from the previous message (the "tick
      normalizer"), and, when the price moved, records the price and the
      notional value [price * delta] in [bigTrade] or [smallTrade]
      (threshold 100000, the "classifier and accumulator");
    - the reporter [calculate_and_display] (lines 62-99) with
      [format_trade_value] (34-38) and [write_to_csv] (40-60): it sums the
      two buckets, averages the prices, computes the percentage change of
      the last price against the average, prints one console line and
      appends one CSV row; it never clears the buckets;
    - the scheduler [start_processing] (138-173) with the interval table
      of [__init__] (17-32): it truncates the CSV file and writes its
      header, prints the console header, starts one one-shot
      [threading.Timer] per interval (20 s, 40 s, ..., 280 s) that calls the
      reporter with the interval's label, and runs the websocket loop;
    - the transport callbacks [on_open] (sends the SUBSCRIBE request),
      [on_error] (prints the exception) and [on_close].

    ** How the development models it
    Python floats are modelled as exact rationals [Q]; Python's
    [round(x, 2)] and the ["{:.2f}"] format round half to even on the
    exact value, which is what CPython does on the exact binary value of
    a float; the rounding error of float addition and multiplication is
    not modelled.  A statement that may raise is a computation of the
    monad [Py S A] of this file: a function from the state to an
    [outcome] (a value or a Python exception) and the state, in which the
    effects performed before a [raise] persist, as attribute updates do
    in Python.  One definition runs on fuel, the JSON scanner of
    [JsonText.v], which is given twice the length of the text and proved
    never to run out of it; every other recursion is structural (digit
    lists by doubling along a [positive], lists, strings).

    - [Prelude.v] (this file): the exception type [exn], the monad [Py]
      with its notation in [py_scope], [py_foreach] (an event loop that
      catches exceptions), Python's [sum] ([py_sum]) with its sum and
      bound lemmas, the append-only order [prefix] (a [PreOrder]
      instance), the closure [star] of a step relation with
      [star_invariant], the hint databases [bot] and [bot_rw] and the
      tactics [py_unfold] and [qcase].
    - [Decimal.v], Modules [Rounding], [Digits], [Format], [Parse],
      [Facts]: [round_half_even] characterised by [round_spec] (unique,
      odd-symmetric, [Proper] for [Qeq]); [py_round2] ([round(x, 2)],
      line 111); [format_2f] (["{:.2f}"], lines 36-38, 57-58, 87-88);
      [py_float_of_string] ([float(s)], lines 104-105).  Lemmas checking
      the model against Python's own laws: [float(f"{x:.2f}") =
      round(x, 2)] and the half-cent bound of [round(x, 2)].
    - [PyJson.v], Module [Json]: the value [json.loads] returns ([int]
      and [float] apart), the subscript [getitem] ([KeyError],
      [TypeError]), [to_float] and [float_item] ([float(data[k])], lines
      104-105).
    - [JsonText.v], Modules [JsonDecode], [JsonEncode], [JsonTextFacts]:
      [json.loads] (line 102) on the text of a frame, as CPython's C
      scanner does it, with the messages and positions of its
      [JSONDecodeError]s and the interpreter's limit of 4300 digits on an
      [int]; [json.dumps] (line 135) with its default separators and
      ASCII escapes.  A model string holds the code points up to
      [U+00FF].  Lemmas: the scanner's fuel never runs out, and [loads]
      inverts [dumps] on every value [dumps] prints (used by the theorem
      on frames without a price in [Scheduler.v]).
    - [Ticker.v], Modules [TradeDataProcessor], [Spec], [TickerFacts]: the record
      [Processor] (attributes of lines 10-14), [on_message] (104-123) on
      the decoded message and [on_message_text] (101-102) on the text, and
      its helpers [volume_delta], [price_changed], [record_trade], and
      [tick], the handler's effect once both fields converted.  Theorems:
      the result on every branch (first message, repeated price, price
      change with its classification), exception safety (a raise leaves
      the processor unchanged), the invariant [acc_inv] and its
      preservation, append-only collections, the refinement of the
      list-level specification [spec_state] over any tick stream, the
      partition of notional values between the buckets.
    - [Csv.v], Modules [CsvWriter], [CsvFacts]: [csv.writer]'s default
      dialect as [csv_line] ([writerow], lines 50-60 and 140-150) and a
      strict reader [read_csv_line] for it, with the lemma that every
      non-empty row written reads back as itself (used for the CSV file
      of a run in [Scheduler.v]).
    - [Report.v], Modules [Reporter], [ReportFacts]: [format_trade_value]
      (34-38), [average_price], [current_price], [percentage],
      [strftime], the console line, [write_to_csv] (40-60) and [calculate_and_display]
      (62-99) over the record [World] (processor, console, CSV file,
      whether the file can be opened), and [csv_file_name] (line 15).
      Theorems: the bounds of the average, the effect of a report on
      every branch (OSError included).
    - [Interleave.v], Modules [Threads], [InterleaveFacts]: a timer
      thread's report against the websocket thread, as schedules of
      statement-level steps: the handler's attribute updates
      [tick_actions] (lines 114-123) and the reporter's reads
      [report_reads] (lines 63-69, the test, sum and length of line 67
      and the test and index of line 69 each a read of its own), run by
      [interleave]; the specification [may_observe] of a report as
      atomic reads on the handler's successive states, which every
      schedule satisfies.  Theorems: from every state with positive
      prices and every message recording a new positive price, a
      schedule makes the report print an average below the averages
      before and after the message (the risk the specification's
      section 5 describes, present in the code); and under every
      schedule the printed average stays between 0 and any bound of the
      recorded prices when they are non-negative, so a torn average only
      errs downwards.
    - [Scheduler.v], Modules [Schedule], [Contract], [Run]: the interval
      table (17-32), [start_processing] (138-173), [on_open] (the
      [json.dumps] text of the request), [on_close], [deliver_text] (the
      library's dispatch of a frame to [on_message] and of an exception
      to [on_error]); the class [ReportContract], the reporter's promise
      to the scheduler, with [calculate_and_display] as instance; the
      step relation [step] of the running program, stated in a Section
      over any reporter that keeps the contract.  Theorems by rule
      induction over [star step]: the invariant of a run, the CSV file
      well formed (header, then one six-field row per report, labelled in
      firing order, read back with the reader of [Csv.v]), each report at
      most once, cumulative collections, liveness (all fourteen reports
      can still happen from every reachable state), a frozen accumulator
      once the connection closed, termination of the closed program
      ([closed_step], well founded by the measure [pending_time]) with
      every report written when it stops; a frame without a price
      reported by [on_error] and skipped; the timer table and the
      OSError path of [start_processing].

    ** Bounds
    The clock counts whole seconds; the liveness proof advances it by
    280 seconds, the largest delay of the table, which every pending
    deadline is bounded by (an invariant of a run).  The JSON scanner
    takes one unit of fuel per value, element or member, and is given
    [2 * length + 1] for a text: each element and member consumes at
    least one character and its recursive call a second unit, which is
    what [scan_fuel_enough] checks.  The closed program's measure counts,
    for each pending timer, one plus the seconds it still waits.

    ** Not modelled
    The websocket transport and the TLS connection (a library, present
    only as the events of [step]); frames whose value the model's types
    cannot hold ([NaN], [Infinity], characters beyond [U+00FF]), which
    [loads] reports as outside the model and [step] does not deliver;
    the nesting limit of the interpreter's recursion; [float.__repr__]
    in [json.dumps] (the program dumps no float); the wall clock (the
    timestamp is an input); the infinite, NaN and underscore forms
    [float()] accepts, float literals beyond the double range (read as
    their exact value, where Python reads [inf]), the rounding error of
    float arithmetic (so [round] may break a tie the float would not
    have, e.g. on [0.3 - 0.295]); [ZeroDivisionError]: division in [Q]
    by zero gives zero, so the guards of lines 67 and 72 are modelled
    but their absence would not raise; the tracebacks a timer thread prints on stderr
    when a report raises.  Two timer threads reporting at the same time
    are not modelled: their delays are 20 s apart, and a report only
    reads the processor, so two reports never race on its attributes;
    their [print] and their CSV row are taken as atomic writes, which
    the io library's buffering makes them for lines this short.  The
    websocket library's calling convention (it calls [on_close] with
    more arguments than the method takes, in the versions that pass the
    close status) is outside the source and not modelled. *)

From Stdlib Require Import String Ascii ZArith QArith Qabs Lia Lqa List.
From Stdlib Require Import Morphisms RelationClasses.
Import ListNotations.

Declare Scope py_scope.
Delimit Scope py_scope with py.

Create HintDb bot.
Create Rewrite HintDb bot_rw.

(** ** Python exceptions *)

(** The exceptions the modelled code can raise: a missing dictionary key,
    a subscript or conversion on a value of the wrong type, a string that
    [float()] rejects, and a failure to open the CSV file. *)
Inductive exn : Type :=
| KeyError (key : string)
| TypeError (msg : string)
| ValueError (msg : string)
| OSError (msg : string).

Inductive outcome (A : Type) : Type :=
| Ret (a : A)
| Raise (e : exn).
Arguments Ret {A} a.
Arguments Raise {A} e.

Definition outcome_bind {A B} (o : outcome A) (k : A -> outcome B) : outcome B :=
  match o with
  | Ret a => k a
  | Raise e => Raise e
  end.

Notation "x <-! o ;; k" := (outcome_bind o (fun x => k))
  (at level 61, o at next level, right associativity) : py_scope.

(** ** The statement monad: state, exceptions, effects that persist *)

Definition Py (S A : Type) : Type := S -> outcome A * S.

Definition py_ret {S A} (a : A) : Py S A := fun s => (Ret a, s).
Definition py_raise {S A} (e : exn) : Py S A := fun s => (Raise e, s).
Definition py_get {S} : Py S S := fun s => (Ret s, s).
Definition py_modify {S} (f : S -> S) : Py S unit := fun s => (Ret tt, f s).
Definition py_lift {S A} (o : outcome A) : Py S A := fun s => (o, s).
Definition py_bind {S A B} (m : Py S A) (k : A -> Py S B) : Py S B :=
  fun s =>
    match m s with
    | (Ret a, s') => k a s'
    | (Raise e, s') => (Raise e, s')
    end.

Notation "x <- m ;; k" := (py_bind m (fun x => k))
  (at level 61, m at next level, right associativity) : py_scope.
Notation "m ;; k" := (py_bind m (fun _ => k))
  (at level 61, right associativity) : py_scope.

Local Open Scope py_scope.

(** Running a computation to its final state and to its outcome. *)
Definition py_state {S A} (m : Py S A) (s : S) : S := snd (m s).
Definition py_outcome {S A} (m : Py S A) (s : S) : outcome A := fst (m s).

(** Running one handler over a sequence of inputs, as an event loop does
    when it catches the handler's exceptions: the state an exception
    leaves behind is the state the next input sees. *)
Fixpoint py_foreach {S X} (h : X -> Py S unit) (xs : list X) (s : S) : S :=
  match xs with
  | [] => s
  | x :: xs' => py_foreach h xs' (py_state (h x) s)
  end.

(** ** Lists *)

(** Python's [sum(l)]: a left fold from the integer [0]. *)
Definition py_sum (l : list Q) : Q := fold_left Qplus l 0.

(** [l1] is a prefix of [l2]: [l2] is [l1] with elements appended. *)
Definition prefix {A} (l1 l2 : list A) : Prop := exists t, l2 = l1 ++ t.

(** ** Tactics *)

(** Unfold the monad's combinators and reduce. *)
Ltac py_unfold :=
  unfold py_state, py_outcome, py_bind, py_ret, py_raise, py_get, py_modify,
    py_lift in *; cbn in *.

(** Case on a boolean comparison of rationals, turning it into the
    proposition it decides. *)
Ltac qcase b :=
  let H := fresh "Hq" in
  destruct b eqn:H;
  [ first [ apply Qle_bool_iff in H | apply Qeq_bool_iff in H | idtac ]
  | first [ apply Qeq_bool_neq in H
          | (assert (~ Qle _ _) by (rewrite <- Qle_bool_iff; congruence))
          | idtac ] ].

(** ** Lemmas on the monad *)

Section Monad.
Context {S : Type}.

Lemma py_bind_ret_l {A B} (a : A) (k : A -> Py S B) s :
  py_bind (py_ret a) k s = k a s.
Proof. reflexivity. Qed.

Lemma py_bind_assoc {A B C} (m : Py S A) (k : A -> Py S B) (k' : B -> Py S C) s :
  py_bind (py_bind m k) k' s = py_bind m (fun a => py_bind (k a) k') s.
Proof. unfold py_bind. destruct (m s) as [[a|e] s']; reflexivity. Qed.

(** The state a failing statement leaves is the state its effects
    reached before the exception: the rest of the block is skipped. *)
Lemma py_bind_raise {A B} (m : Py S A) (k : A -> Py S B) s e s' :
  m s = (Raise e, s') -> py_bind m k s = (Raise e, s').
Proof. unfold py_bind. intros ->. reflexivity. Qed.
End Monad.

#[export] Hint Rewrite @py_bind_ret_l @py_bind_assoc : bot_rw.

Lemma py_foreach_app {S X} (h : X -> Py S unit) xs ys s :
  py_foreach h (xs ++ ys) s = py_foreach h ys (py_foreach h xs s).
Proof. revert s. induction xs; simpl; auto. Qed.

(** ** Lemmas on [py_sum] *)

Lemma py_sum_snoc l x : py_sum (l ++ [x]) = py_sum l + x.
Proof. unfold py_sum. rewrite fold_left_app. reflexivity. Qed.

Lemma fold_left_Qplus_acc l a : fold_left Qplus l a == a + fold_left Qplus l 0.
Proof.
  revert a. induction l as [|x l IH]; intros a; simpl.
  - lra.
  - rewrite (IH (a + x)), (IH (0 + x)). lra.
Qed.

Lemma py_sum_cons x l : py_sum (x :: l) == x + py_sum l.
Proof. unfold py_sum. simpl. rewrite fold_left_Qplus_acc. lra. Qed.

Lemma py_sum_app l1 l2 : py_sum (l1 ++ l2) == py_sum l1 + py_sum l2.
Proof.
  unfold py_sum. rewrite fold_left_app, fold_left_Qplus_acc. reflexivity.
Qed.

Lemma py_sum_nonneg l : Forall (fun x => 0 <= x) l -> 0 <= py_sum l.
Proof.
  induction 1 as [|x l Hx _ IH]; [unfold py_sum; simpl; lra|].
  rewrite py_sum_cons. lra.
Qed.

Lemma py_sum_pos l : l <> [] -> Forall (fun x => 0 < x) l -> 0 < py_sum l.
Proof.
  intros Hne H. destruct H as [|x l Hx Hl]; [congruence|].
  rewrite py_sum_cons. assert (0 <= py_sum l); [|lra].
  apply py_sum_nonneg. eapply Forall_impl; [|exact Hl]. intros y Hy. cbv beta in Hy |- *. lra.
Qed.

(** Splitting a list by a test and summing the two parts gives the sum of
    the whole list. *)
Lemma py_sum_filter_partition (p : Q -> bool) l :
  py_sum (filter p l) + py_sum (filter (fun x => negb (p x)) l) == py_sum l.
Proof.
  induction l as [|x l IH]; [unfold py_sum; simpl; lra|].
  simpl. destruct (p x); simpl; rewrite !py_sum_cons; rewrite <- IH; lra.
Qed.

(** ** Strings as lists of characters *)

Lemma list_ascii_of_string_app s1 s2 :
  list_ascii_of_string (s1 ++ s2)%string = list_ascii_of_string s1 ++ list_ascii_of_string s2.
Proof. induction s1 as [|a s1 IH]; simpl; [reflexivity|now rewrite IH]. Qed.

(** ** The append-only order *)

#[export] Instance prefix_preorder {A} : PreOrder (@prefix A).
Proof.
  split.
  - intros l. exists []. now rewrite app_nil_r.
  - intros l1 l2 l3 [t1 ->] [t2 ->]. exists (t1 ++ t2). now rewrite app_assoc.
Qed.

Lemma prefix_snoc {A} (l : list A) x : prefix l (l ++ [x]).
Proof. exists [x]. reflexivity. Qed.

Lemma prefix_length {A} (l1 l2 : list A) : prefix l1 l2 -> (length l1 <= length l2)%nat.
Proof. intros [t ->]. rewrite length_app. lia. Qed.

#[export] Hint Resolve prefix_snoc : bot.
#[export] Hint Extern 1 (prefix ?l ?l) => reflexivity : bot.

(** The sum of [n] values between [lo] and [hi] lies between [n * lo]
    and [n * hi]. *)
Lemma py_sum_bounds lo hi l :
  Forall (fun x => lo <= x /\ x <= hi) l ->
  inject_Z (Z.of_nat (length l)) * lo <= py_sum l
  /\ py_sum l <= inject_Z (Z.of_nat (length l)) * hi.
Proof.
  induction 1 as [|x l [Hlo Hhi] _ [IHl IHh]].
  { unfold py_sum. cbn [length Z.of_nat fold_left]. change (inject_Z 0) with 0. lra. }
  rewrite py_sum_cons. cbn [length].
  rewrite Nat2Z.inj_succ, <- Z.add_1_r, inject_Z_plus. change (inject_Z 1) with 1.
  rewrite !Qmult_plus_distr_l, !Qmult_1_l.
  split; lra.
Qed.

(** ** Runs of a step relation *)

Section Star.
Context {A : Type} (R : A -> A -> Prop).

(** Zero, one or several steps. *)
Inductive star : A -> A -> Prop :=
| star_refl a : star a a
| star_step a b c : R a b -> star b c -> star a c.

Lemma star_one a b : R a b -> star a b.
Proof. eauto using star. Qed.

Lemma star_trans a b c : star a b -> star b c -> star a c.
Proof. induction 1; eauto using star. Qed.

(** A property every step preserves holds all along a run. *)
Lemma star_invariant (P : A -> Prop) :
  (forall a b, P a -> R a b -> P b) -> forall a b, star a b -> P a -> P b.
Proof. intros Hstep a b Hs. induction Hs; eauto. Qed.
End Star.

#[export] Hint Resolve star_refl star_one : bot.
