(* ===== verification/Decimal.v ===== *)
(** * Python's decimal rounding, formatting and parsing of floats

    The numeric text of [src/main.py]: [round(x, 2)] (line 111), the
    format specification ["{:.2f}"] (lines 36, 38, 57, 58, 87, 88) and
    [float(s)] on the decimal strings of the ticker stream (lines 104,
    105, 123).  Floats are modelled as exact rationals; CPython rounds
    half to even on the exact value in both [round] and [format]. *)

From Stdlib Require Import String Ascii ZArith QArith Qabs Qround Lia Lqa List.
From Stdlib Require Import Morphisms.
From S2P Require Import Prelude.
Import ListNotations.

(** ** Rounding to the nearest integer, ties to even *)

Module Rounding.

(** The integer nearest to [q]; when [q] is halfway between two integers,
    the even one. *)
Definition round_half_even (q : Q) : Z :=
  let fl := Qfloor q in
  match Qcompare (q - inject_Z fl) (1 # 2) with
  | Lt => fl
  | Gt => fl + 1
  | Eq => if Z.even fl then fl else fl + 1
  end.

(** Python's [round(x, 2)]: [x] rounded to a multiple of [1/100]. *)
Definition py_round2 (x : Q) : Q := round_half_even (x * 100) # 100.

(** The value-level characterisation of rounding half to even. *)
Definition round_spec (q : Q) (z : Z) : Prop :=
  (inject_Z z - (1 # 2) < q /\ q < inject_Z z + (1 # 2))
  \/ ((q == inject_Z z - (1 # 2) \/ q == inject_Z z + (1 # 2)) /\ Z.even z = true).

Lemma round_spec_le q z :
  round_spec q z -> inject_Z z - (1 # 2) <= q /\ q <= inject_Z z + (1 # 2).
Proof. intros [[H1 H2]|[[H|H] _]]; split; lra. Qed.

Lemma round_half_even_spec q : round_spec q (round_half_even q).
Proof.
  unfold round_half_even, round_spec.
  pose proof (Qfloor_le q) as Hl. pose proof (Qlt_floor q) as Hu.
  rewrite inject_Z_plus in Hu. change (inject_Z 1) with 1 in Hu.
  destruct (Qcompare_spec (q - inject_Z (Qfloor q)) (1 # 2)) as [H|H|H].
  - destruct (Z.even (Qfloor q)) eqn:He; right; split.
    + right. lra.
    + exact He.
    + left. rewrite inject_Z_plus. change (inject_Z 1) with 1. lra.
    + rewrite Z.even_add, He. reflexivity.
  - left. split; lra.
  - left. rewrite inject_Z_plus. change (inject_Z 1) with 1. split; lra.
Qed.

Lemma round_spec_unique q z1 z2 : round_spec q z1 -> round_spec q z2 -> z1 = z2.
Proof.
  intros H1 H2.
  destruct (round_spec_le _ _ H1) as [H1l H1u].
  destruct (round_spec_le _ _ H2) as [H2l H2u].
  assert (Hz : (z1 <= z2 + 1 /\ z2 <= z1 + 1)%Z).
  { rewrite !Zle_Qle, !inject_Z_plus. change (inject_Z 1) with 1. split; lra. }
  assert (Hodd : forall a b, b = (a + 1)%Z -> Z.even a = true -> Z.even b = true -> False).
  { intros a b -> Ha Hb. rewrite Z.even_add, Ha in Hb. discriminate. }
  destruct (Z.eq_dec z1 z2) as [|Hne]; [assumption|]; exfalso.
  assert (Hc : z1 = (z2 + 1)%Z \/ z2 = (z1 + 1)%Z) by lia.
  unfold round_spec in H1, H2.
  destruct Hc as [Hc|Hc]; rewrite Hc in *; rewrite inject_Z_plus in *;
    change (inject_Z 1) with 1 in *.
  - destruct H1 as [[? ?]|[_ E1]]; [lra|].
    destruct H2 as [[? ?]|[_ E2]]; [lra|].
    exact (Hodd z2 _ eq_refl E2 E1).
  - destruct H1 as [[? ?]|[_ E1]]; [lra|].
    destruct H2 as [[? ?]|[_ E2]]; [lra|].
    exact (Hodd z1 _ eq_refl E1 E2).
Qed.

Lemma round_spec_compat q q' z : q == q' -> round_spec q z -> round_spec q' z.
Proof. unfold round_spec. intros E H. rewrite <- E. exact H. Qed.

Lemma round_spec_opp q z : round_spec q z -> round_spec (- q) (- z).
Proof.
  unfold round_spec. rewrite inject_Z_opp, Z.even_opp.
  intros [[H1 H2]|[[H|H] He]]; [left; split; lra|right; split; [right; lra|exact He]
                                |right; split; [left; lra|exact He]].
Qed.

(** The rounding of [q] is the unique integer the specification allows. *)
Lemma round_half_even_unique q z : round_spec q z -> round_half_even q = z.
Proof. intros H. exact (round_spec_unique q _ _ (round_half_even_spec q) H). Qed.

#[export] Instance round_half_even_proper : Proper (Qeq ==> eq) round_half_even.
Proof.
  intros q q' E. apply round_half_even_unique.
  apply (round_spec_compat q'); [symmetry; exact E|apply round_half_even_spec].
Qed.

Lemma round_half_even_opp q : round_half_even (- q) = (- round_half_even q)%Z.
Proof. apply round_half_even_unique, round_spec_opp, round_half_even_spec. Qed.

#[export] Instance py_round2_proper : Proper (Qeq ==> eq) py_round2.
Proof. intros x y E. unfold py_round2. now rewrite E. Qed.

End Rounding.

(** ** Decimal digits of a natural number *)

Module Digits.

(** A decimal digit and its character ['0'..'9']. *)
Definition is_digit (d : Z) : Prop := (0 <= d < 10)%Z.

Definition digit_char (d : Z) : ascii := ascii_of_nat (48 + Z.to_nat d).
Arguments digit_char : simpl never.

(** The digit a character stands for, if it is one of ['0'..'9']. *)
Definition char_digit (a : ascii) : option Z :=
  let n := nat_of_ascii a in
  if andb (Nat.leb 48 n) (Nat.leb n 57) then Some (Z.of_nat n - 48)%Z else None.

(** Digit lists are little-endian: the units digit first.  Doubling a
    digit list and adding a carry [c] in [{0, 1}]. *)
Fixpoint dbl (c : Z) (ds : list Z) : list Z :=
  match ds with
  | [] => if Z.eqb c 0 then [] else [c]
  | d :: t => let x := (2 * d + c)%Z in (x mod 10)%Z :: dbl (x / 10)%Z t
  end.

(** The decimal digits of a positive number, read off its binary
    representation by doubling. *)
Fixpoint digits_pos (p : positive) : list Z :=
  match p with
  | xH => [1%Z]
  | xO p' => dbl 0 (digits_pos p')
  | xI p' => dbl 1 (digits_pos p')
  end.

Definition digits_le (n : Z) : list Z :=
  match n with
  | Zpos p => digits_pos p
  | _ => [0%Z]
  end.

(** The decimal text of a natural number, as [str(n)] prints it. *)
Definition show_Z (n : Z) : string :=
  string_of_list_ascii (map digit_char (rev (digits_le n))).

Definition value_le (ds : list Z) : Z := fold_right (fun d acc => d + 10 * acc)%Z 0%Z ds.

(** The value of a big-endian digit list, as a parser accumulates it. *)
Definition value_be (ds : list Z) : Z := fold_left (fun acc d => 10 * acc + d)%Z ds 0%Z.

Lemma value_le_cons d t : value_le (d :: t) = (d + 10 * value_le t)%Z.
Proof. reflexivity. Qed.

Lemma dbl_spec ds c :
  Forall is_digit ds -> (0 <= c <= 1)%Z ->
  Forall is_digit (dbl c ds) /\ value_le (dbl c ds) = (2 * value_le ds + c)%Z
  /\ (ds <> [] -> dbl c ds <> []).
Proof.
  intros Hds. revert c. induction Hds as [|d t Hd Ht IH]; intros c Hc; cbn [dbl].
  - destruct (Z.eqb_spec c 0) as [->|Hc0]; simpl.
    + repeat split; [constructor|congruence].
    + repeat split; [repeat constructor; unfold is_digit; lia|lia|congruence].
  - unfold is_digit in Hd.
    destruct (IH ((2 * d + c) / 10)%Z) as [IHf [IHv _]]; [Z.div_mod_to_equations; lia|].
    repeat split; try discriminate.
    + constructor; [unfold is_digit; Z.div_mod_to_equations; lia|exact IHf].
    + rewrite value_le_cons, IHv, value_le_cons. Z.div_mod_to_equations. lia.
Qed.

Lemma digits_pos_spec p :
  Forall is_digit (digits_pos p) /\ value_le (digits_pos p) = Zpos p /\ digits_pos p <> [].
Proof.
  induction p as [p [Hf [Hv Hn]]|p [Hf [Hv Hn]]|]; simpl.
  - destruct (dbl_spec (digits_pos p) 1 Hf) as [A [B C]]; [lia|].
    repeat split; auto. rewrite B, Hv. lia.
  - destruct (dbl_spec (digits_pos p) 0 Hf) as [A [B C]]; [lia|].
    repeat split; auto. rewrite B, Hv. lia.
  - repeat split; [repeat constructor; unfold is_digit; lia|discriminate].
Qed.

Lemma digits_le_spec n :
  (0 <= n)%Z ->
  Forall is_digit (digits_le n) /\ value_le (digits_le n) = n /\ digits_le n <> [].
Proof.
  intros Hn. destruct n as [|p|p]; simpl; [|apply digits_pos_spec|lia].
  repeat split; [repeat constructor; unfold is_digit; lia|discriminate].
Qed.

Lemma value_be_snoc ds d : value_be (ds ++ [d]) = (10 * value_be ds + d)%Z.
Proof. unfold value_be. rewrite fold_left_app. reflexivity. Qed.

Lemma value_be_rev ds : value_be (rev ds) = value_le ds.
Proof.
  induction ds as [|d ds IH]; [reflexivity|].
  cbn [rev]. rewrite value_be_snoc, IH, value_le_cons. lia.
Qed.

Lemma char_digit_char d : is_digit d -> char_digit (digit_char d) = Some d.
Proof.
  unfold is_digit. intros Hd.
  assert (d = 0 \/ d = 1 \/ d = 2 \/ d = 3 \/ d = 4 \/ d = 5 \/ d = 6 \/ d = 7
          \/ d = 8 \/ d = 9)%Z as H by lia.
  repeat destruct H as [->|H]; try reflexivity; subst; reflexivity.
Qed.

End Digits.

(** ** The format specification ["{:.2f}"] *)

Module Format.
Import Rounding Digits.

Definition show_digit (d : Z) : string := String (digit_char d) EmptyString.

(** [f"{x:.2f}"]: the sign of [x] when it is negative (also when the
    rounded value is zero, as in ["-0.00"]), the integer part, a point and
    two decimals of [|x|] rounded half to even. *)
Definition format_2f (x : Q) : string :=
  let r := round_half_even (Qabs x * 100) in
  let f := (r mod 100)%Z in
  ((if Qle_bool 0 x then "" else "-") ++ show_Z (r / 100) ++ "."
    ++ show_digit (f / 10) ++ show_digit (f mod 10))%string.

End Format.

(** ** [float(s)] on a string *)

Module Parse.
Import Digits.

(** The characters [str.isspace] accepts among ASCII: tab to carriage
    return, the four separators [\x1c]-[\x1f], and space. *)
Definition is_py_space (a : ascii) : bool :=
  let n := nat_of_ascii a in
  orb (andb (Nat.leb 9 n) (Nat.leb n 13)) (andb (Nat.leb 28 n) (Nat.leb n 32)).

Fixpoint lstrip (s : list ascii) : list ascii :=
  match s with
  | a :: t => if is_py_space a then lstrip t else s
  | [] => []
  end.

Definition strip (s : list ascii) : list ascii := rev (lstrip (rev (lstrip s))).

(** An optional sign. *)
Definition parse_sign (s : list ascii) : Z * list ascii :=
  match s with
  | a :: t =>
      if Ascii.eqb a "+"%char then (1%Z, t)
      else if Ascii.eqb a "-"%char then ((-1)%Z, t)
      else (1%Z, s)
  | [] => (1%Z, [])
  end.

(** The longest prefix of decimal digits. *)
Fixpoint span_digits (s : list ascii) : list Z * list ascii :=
  match s with
  | a :: t =>
      match char_digit a with
      | Some d => let '(ds, r) := span_digits t in (d :: ds, r)
      | None => ([], s)
      end
  | [] => ([], [])
  end.

(** An optional exponent [e[+-]digits] ending the string. *)
Definition parse_exponent (s : list ascii) : option Z :=
  match s with
  | [] => Some 0%Z
  | a :: t =>
      if orb (Ascii.eqb a "e"%char) (Ascii.eqb a "E"%char) then
        let '(sg, t') := parse_sign t in
        match span_digits t' with
        | ((_ :: _) as ds, []) => Some (sg * value_be ds)%Z
        | _ => None
        end
      else None
  end.

(** [m * 10 ^ k] for an integer [k] of either sign. *)
Definition scale (m k : Z) : Q :=
  if Z.leb 0 k then inject_Z (m * 10 ^ k) else m # Z.to_pos (10 ^ (- k)).

(** [float(s)] for a decimal literal [[+-]digits[.digits][e[+-]digits]]
    surrounded by white space, with at least one digit in the mantissa;
    [None] is the [ValueError] Python raises on any other string of this
    grammar's alphabet. *)
Definition py_float_of_string (s : string) : option Q :=
  let cs := strip (list_ascii_of_string s) in
  let '(sg, cs1) := parse_sign cs in
  let '(ip, cs2) := span_digits cs1 in
  let '(fp, cs3) :=
    match cs2 with
    | a :: t => if Ascii.eqb a "."%char then span_digits t else ([], cs2)
    | [] => ([], [])
    end in
  match ip ++ fp with
  | [] => None
  | _ :: _ =>
      option_map (fun e => scale (sg * value_be (ip ++ fp)) (e - Z.of_nat (length fp)))
        (parse_exponent cs3)
  end.

End Parse.

(** ** Properties *)

Module Facts.
Import Rounding Digits Format Parse.

Lemma is_digit_cases d :
  is_digit d ->
  (d = 0 \/ d = 1 \/ d = 2 \/ d = 3 \/ d = 4 \/ d = 5 \/ d = 6 \/ d = 7 \/ d = 8 \/ d = 9)%Z.
Proof. unfold is_digit. lia. Qed.

(** A fact about one digit's character, checked on each of the ten. *)
Ltac by_digit_cases H :=
  let E := fresh "E" in
  pose proof (is_digit_cases _ H) as E;
  repeat match goal with E : _ \/ _ |- _ => destruct E as [E|E] end; subst; reflexivity.

Lemma digit_char_nonspace d : is_digit d -> is_py_space (digit_char d) = false.
Proof. intros H. by_digit_cases H. Qed.

Lemma parse_sign_digit d t : is_digit d -> parse_sign (digit_char d :: t) = (1%Z, digit_char d :: t).
Proof. intros H. by_digit_cases H. Qed.

Lemma lstrip_nonspace l : Forall (fun a => is_py_space a = false) l -> lstrip l = l.
Proof. intros [|a t Ha _]; simpl; [reflexivity|now rewrite Ha]. Qed.

Lemma strip_nonspace l : Forall (fun a => is_py_space a = false) l -> strip l = l.
Proof.
  intros H. unfold strip. rewrite (lstrip_nonspace l H).
  rewrite (lstrip_nonspace (rev l)) by (apply Forall_rev; exact H). apply rev_involutive.
Qed.

Lemma span_digits_cons a t :
  span_digits (a :: t) =
  match char_digit a with
  | Some d => let '(ds, r) := span_digits t in (d :: ds, r)
  | None => ([], a :: t)
  end.
Proof. reflexivity. Qed.

Lemma span_digits_digits ds rest :
  Forall is_digit ds ->
  match rest with a :: _ => char_digit a = None | [] => True end ->
  span_digits (map digit_char ds ++ rest) = (ds, rest).
Proof.
  intros Hds Hr. induction Hds as [|d ds Hd _ IH]; cbn [map app].
  - destruct rest as [|a t]; [reflexivity|]. now rewrite span_digits_cons, Hr.
  - rewrite span_digits_cons, char_digit_char, IH by exact Hd. reflexivity.
Qed.

Lemma round_half_even_nonneg q : 0 <= q -> (0 <= round_half_even q)%Z.
Proof.
  intros Hq. destruct (round_spec_le _ _ (round_half_even_spec q)) as [_ Hu].
  assert (H : inject_Z (-1) < inject_Z (round_half_even q)).
  { change (inject_Z (-1)) with (-1). lra. }
  rewrite <- Zlt_Qlt in H. lia.
Qed.

(** The sign-and-magnitude rounding of [format_2f] is the rounding of the
    signed value: rounding half to even is symmetric. *)
Lemma round_signed_abs x :
  ((if Qle_bool 0 x then 1 else -1) * round_half_even (Qabs x * 100))%Z
  = round_half_even (x * 100).
Proof.
  destruct (Qle_bool 0 x) eqn:Hs.
  - apply Qle_bool_iff in Hs. rewrite (Qabs_pos x Hs). lia.
  - assert (Hn : x <= 0).
    { apply Qlt_le_weak, Qnot_le_lt. rewrite <- Qle_bool_iff. congruence. }
    rewrite (Qabs_neg x Hn).
    assert (E : - x * 100 == - (x * 100)) by ring.
    rewrite E, round_half_even_opp. lia.
Qed.

Lemma scale_neg2 m : scale m (-2) = m # 100.
Proof. reflexivity. Qed.

(** Parsing the text [pre digits "." a b], where [pre] is a sign prefix
    that [parse_sign] reads as [sg]. *)
Lemma parse_fixed2 (pre : list ascii) (sg : Z) (ds : list Z) (a b : Z) :
  Forall (fun c => is_py_space c = false) pre ->
  Forall is_digit ds -> ds <> [] -> is_digit a -> is_digit b ->
  parse_sign (pre ++ map digit_char ds ++ ["."%char; digit_char a; digit_char b])
  = (sg, map digit_char ds ++ ["."%char; digit_char a; digit_char b]) ->
  py_float_of_string
    (string_of_list_ascii (pre ++ map digit_char ds ++ ["."%char; digit_char a; digit_char b]))
  = Some ((sg * (100 * value_be ds + 10 * a + b)) # 100).
Proof.
  intros Hpre Hds Hne Ha Hb Hsg. unfold py_float_of_string.
  rewrite list_ascii_of_string_of_list_ascii, strip_nonspace.
  2:{ apply Forall_app; split; [exact Hpre|]. apply Forall_app; split.
      - apply Forall_map. eapply Forall_impl; [|exact Hds]. apply digit_char_nonspace.
      - repeat constructor; auto using digit_char_nonspace. }
  rewrite Hsg, span_digits_digits by (simpl; auto).
  cbn [Ascii.eqb Bool.eqb andb].
  change [digit_char a; digit_char b] with (map digit_char [a; b] ++ []).
  rewrite span_digits_digits
    by first [exact I | repeat (apply Forall_cons; [assumption|]); apply Forall_nil].
  destruct ds as [|d ds']; [congruence|].
  cbn [app parse_exponent option_map].
  match goal with
  | |- Some (scale ?m _) = ?r => change (Some (scale m (-2)) = r)
  end.
  rewrite scale_neg2.
  change (d :: ds' ++ [a; b]) with ((d :: ds') ++ [a] ++ [b]).
  rewrite app_assoc, !value_be_snoc. do 2 f_equal. lia.
Qed.

Lemma string_of_list_ascii_app l1 l2 :
  string_of_list_ascii (l1 ++ l2) = (string_of_list_ascii l1 ++ string_of_list_ascii l2)%string.
Proof. induction l1 as [|c l1 IH]; simpl; [reflexivity|now rewrite IH]. Qed.

(** The characters of [f"{x:.2f}"]: an optional minus, the digits of the
    integer part, a point, two digits. *)
Lemma format_2f_chars x :
  let r := round_half_even (Qabs x * 100) in
  format_2f x =
  string_of_list_ascii
    ((if Qle_bool 0 x then [] else ["-"%char])
       ++ map digit_char (rev (digits_le (r / 100)))
       ++ ["."%char; digit_char (r mod 100 / 10); digit_char (r mod 100 mod 10)]).
Proof.
  intros r. unfold format_2f, show_Z, show_digit. fold r.
  rewrite !string_of_list_ascii_app.
  destruct (Qle_bool 0 x); reflexivity.
Qed.

(** The model's [format_2f] and [py_float_of_string] agree with each
    other the way Python's [.2f] and [float()] do: the two-decimal text
    reads back as the value rounded half to even. *)
Lemma format_2f_roundtrip x : py_float_of_string (format_2f x) = Some (py_round2 x).
Proof.
  rewrite format_2f_chars. unfold py_round2.
  set (r := round_half_even (Qabs x * 100)).
  assert (Hr : (0 <= r)%Z).
  { apply round_half_even_nonneg. pose proof (Qabs_nonneg x). lra. }
  destruct (digits_le_spec (r / 100)) as [Hd [Hv Hne]]; [Z.div_mod_to_equations; lia|].
  assert (Hf1 : is_digit (r mod 100 / 10)) by (unfold is_digit; Z.div_mod_to_equations; lia).
  assert (Hf2 : is_digit (r mod 100 mod 10)) by (unfold is_digit; Z.div_mod_to_equations; lia).
  assert (Hne' : rev (digits_le (r / 100)) <> []).
  { intros E. apply Hne. rewrite <- (rev_involutive (digits_le _)), E. reflexivity. }
  pose proof (Forall_rev Hd) as Hd'.
  transitivity (Some
    (((if Qle_bool 0 x then 1 else -1) * (100 * value_be (rev (digits_le (r / 100)))
       + 10 * (r mod 100 / 10) + r mod 100 mod 10)) # 100)).
  - destruct (rev (digits_le (r / 100))) as [|d0 rds] eqn:Er; [congruence|].
    inversion Hd' as [|? ? Hd0 _]; subst.
    destruct (Qle_bool 0 x).
    + apply (parse_fixed2 []); auto.
      all: try (cbn [app map]; now apply parse_sign_digit).
    + apply (parse_fixed2 ["-"%char]); auto. all: try (repeat constructor).
  - rewrite value_be_rev, Hv, <- round_signed_abs. fold r.
    do 2 f_equal. Z.div_mod_to_equations. lia.
Qed.

Lemma Qmake_100 z : (z # 100) == inject_Z z * (1 # 100).
Proof. unfold Qeq, inject_Z. simpl. lia. Qed.

(** The model of [round(x, 2)] moves [x] by at most half a cent. *)
Lemma py_round2_bound x : x - (1 # 200) <= py_round2 x /\ py_round2 x <= x + (1 # 200).
Proof.
  unfold py_round2. rewrite Qmake_100.
  destruct (round_spec_le _ _ (round_half_even_spec (x * 100))). split; lra.
Qed.

#[export] Instance format_2f_proper : Proper (Qeq ==> eq) format_2f.
Proof.
  intros x y E. unfold format_2f.
  rewrite (Qleb_comp 0 0 (Qeq_refl 0) x y E), (Qabs_wd x y E). reflexivity.
Qed.

End Facts.
