(* ===== verification/PyJson.v ===== *)
(** * Decoded ticker messages: [data["c"]] and [float(...)]

    [on_message] (src/main.py, lines 101-105 and 123) decodes the frame
    with [json.loads], subscripts the result with ["c"] and ["v"], and
    converts each value with [float()].  This file models the value
    [json.loads] returns, the subscript (a [KeyError] when the key is
    missing, a [TypeError] when the value is not a dict) and [float()]
    on each kind of JSON value (a [ValueError] on a string that is not a
    number, a [TypeError] on [None], a list or a dict). *)

From Stdlib Require Import String Ascii ZArith QArith List.
From S2P Require Import Prelude Decimal.
Import ListNotations.
Local Open Scope py_scope.
Local Open Scope string_scope.
Local Set Warnings "-register-all".

Module Json.
Import Parse.

(** The Python value [json.loads] returns: [None], a bool, an [int], a
    [float] (as the exact rational it denotes), a string, a list, or a
    dict with its keys in document order. *)
Inductive json : Type :=
| JNull
| JBool (b : bool)
| JInt (z : Z)
| JNum (q : Q)
| JStr (s : string)
| JArr (l : list json)
| JObj (fields : list (string * json)).

(** The dict [json.loads] builds keeps the last value of a repeated key. *)
Definition dict_lookup (k : string) (fields : list (string * json)) : option json :=
  fold_left (fun acc kv => if String.eqb k (fst kv) then Some (snd kv) else acc) fields None.

(** The name Python prints for a value's type. *)
Definition type_name (v : json) : string :=
  match v with
  | JNull => "NoneType"
  | JBool _ => "bool"
  | JInt _ => "int"
  | JNum _ => "float"
  | JStr _ => "str"
  | JArr _ => "list"
  | JObj _ => "dict"
  end.

(** [data[k]] with a string key. *)
Definition getitem (data : json) (k : string) : outcome json :=
  match data with
  | JObj fields =>
      match dict_lookup k fields with
      | Some v => Ret v
      | None => Raise (KeyError k)
      end
  | JArr _ => Raise (TypeError "list indices must be integers or slices, not str")
  | JStr _ => Raise (TypeError "string indices must be integers, not 'str'")
  | v => Raise (TypeError ("'" ++ type_name v ++ "' object is not subscriptable"))
  end.

(** [float(v)]: a number as it is, an [int] as the same number, a bool as [1.0] or [0.0], a string
    through the decimal-literal parser. *)
Definition to_float (v : json) : outcome Q :=
  match v with
  | JNum q => Ret q
  | JInt z => Ret (inject_Z z)
  | JBool b => Ret (if b then 1 else 0)
  | JStr s =>
      match py_float_of_string s with
      | Some q => Ret q
      | None => Raise (ValueError ("could not convert string to float: '" ++ s ++ "'"))
      end
  | v => Raise (TypeError ("float() argument must be a string or a real number, not '"
                           ++ type_name v ++ "'"))
  end.

(** [float(data[k])]. *)
Definition float_item (data : json) (k : string) : outcome Q :=
  v <-! getitem data k ;; to_float v.

(** A ticker message of the Binance stream with the fields the code reads,
    the last price ["c"] and the cumulative volume ["v"], as decimal
    strings. *)
Definition ticker_message (c v : string) : json :=
  JObj [("e", JStr "24hrTicker"); ("s", JStr "BTCUSDT"); ("c", JStr c); ("v", JStr v)].

(** The reply the exchange sends to the SUBSCRIBE request of [on_open]. *)
Definition subscribe_reply : json := JObj [("result", JNull); ("id", JInt 1)].

(** A message carrying the two fields as numbers, as the model of a tick
    stream uses it. *)
Definition tick_json (c v : Q) : json := JObj [("c", JNum c); ("v", JNum v)].

End Json.

Module JsonFacts.
Import Json.

Lemma dict_lookup_snoc k fields k' v :
  dict_lookup k (fields ++ [(k', v)])%list =
  if String.eqb k k' then Some v else dict_lookup k fields.
Proof. unfold dict_lookup. rewrite fold_left_app. reflexivity. Qed.

(** A key that no field carries is missing from the dict. *)
Lemma dict_lookup_absent k fields :
  Forall (fun kv => fst kv <> k) fields -> dict_lookup k fields = None.
Proof.
  intros H. rewrite <- (rev_involutive fields) in *.
  apply Forall_rev in H. rewrite rev_involutive in H.
  induction (rev fields) as [|[k' v] l IH]; [reflexivity|].
  simpl. rewrite dict_lookup_snoc. inversion H as [|? ? Hk Hl]; subst.
  destruct (String.eqb_spec k k'); [simpl in Hk; congruence|auto].
Qed.

(** [float(data[k])] fails with [KeyError k] exactly when the dict has
    no field [k]. *)
Lemma float_item_missing fields k :
  Forall (fun kv => fst kv <> k) fields -> float_item (JObj fields) k = Raise (KeyError k).
Proof. intros H. unfold float_item, getitem. now rewrite dict_lookup_absent. Qed.

Lemma float_item_num c v : float_item (tick_json c v) "c" = Ret c /\ float_item (tick_json c v) "v" = Ret v.
Proof. split; reflexivity. Qed.

End JsonFacts.
