(* ===== verification/JsonText.v ===== *)
(** * The text of the frames: [json.loads] and [json.dumps]

    [on_message] decodes each frame with [json.loads(message)]
    (src/main.py, line 102) and [on_open] encodes the SUBSCRIBE request
    with [json.dumps] (line 135).  This file models both on the ASCII
    text of a frame (a string of the model holds the code points
    [U+0000] to [U+00FF], one [ascii] each), as CPython's [json] module does them with its C
    accelerator (the scanner [scan_once], [scanstring] and the encoder
    [encode_basestring_ascii]) and default arguments:

    - [JsonDecode.loads] skips white space, scans one value and refuses
      trailing data, with the errors of [json.JSONDecodeError] (a
      [ValueError]) at the position the scanner reports, formatted as
      [str(e)] prints them; an [int] literal of more than 4300 digits
      raises the [ValueError] of the interpreter's conversion limit;
    - [JsonEncode.dumps] prints a value with the separators [", "] and
      [": "] and every non-printable or non-ASCII character escaped.

    A document that decodes to a value the model's types cannot hold
    ([NaN], [Infinity], [-Infinity], a [\u] escape beyond [U+00FF]) is
    outside the model: [loads] returns [None] for it.  Float literals are
    read as the exact rationals they denote, as every float of the
    development is.  Recursion is bounded by fuel, twice the length of
    the text; lemmas show that it never runs out, and that [loads]
    inverts [dumps], which the theorem on frames without a price in
    [Scheduler.v] uses. *)

From Stdlib Require Import String Ascii ZArith QArith List Lia.
From S2P Require Import Prelude Decimal PyJson.
Import ListNotations.
Local Open Scope py_scope.
Local Open Scope nat_scope.

Module JsonDecode.
Import Digits Parse Json.

Definition quote : ascii := "034".
Definition bslash : ascii := "092".
Definition newline : ascii := "010".

(** [IS_WHITESPACE] of the scanner: space, tab, line feed, carriage
    return. *)
Definition is_ws (a : ascii) : bool :=
  (Ascii.eqb a " " || Ascii.eqb a "009" || Ascii.eqb a "010" || Ascii.eqb a "013")%bool.

Fixpoint skip_ws (cs : list ascii) : list ascii :=
  match cs with
  | a :: t => if is_ws a then skip_ws t else cs
  | [] => []
  end.

(** The errors the decoder raises. *)
Inductive jerr : Type :=
| Expecting_value
| Expecting_property_name
| Expecting_colon
| Expecting_comma
| Unterminated_string
| Invalid_control
| Invalid_escape
| Invalid_uXXXX
| Extra_data
| Int_limit (ndigits : nat).

(** The message of a [JSONDecodeError], before its position. *)
Definition jerr_msg (e : jerr) : string :=
  match e with
  | Expecting_value => "Expecting value"
  | Expecting_property_name => "Expecting property name enclosed in double quotes"
  | Expecting_colon => "Expecting ':' delimiter"
  | Expecting_comma => "Expecting ',' delimiter"
  | Unterminated_string => "Unterminated string starting at"
  | Invalid_control => "Invalid control character at"
  | Invalid_escape => "Invalid \escape"
  | Invalid_uXXXX => "Invalid \uXXXX escape"
  | Extra_data => "Extra data"
  | Int_limit _ => "Exceeds the limit (4300 digits) for integer string conversion"
  end.

(** A scan: the value read, whether the model's types hold it exactly,
    and the rest of the text; or an error at the suffix of the text where
    the scanner reports it; or the fuel ran out. *)
Inductive scan (A : Type) : Type :=
| Scanned (a : A) (exact : bool) (rest : list ascii)
| Failed (e : jerr) (at_ : list ascii)
| No_fuel.
Arguments Scanned {A}.
Arguments Failed {A}.
Arguments No_fuel {A}.

Definition smap {A B} (f : A -> B) (r : scan A) : scan B :=
  match r with
  | Scanned a ex rest => Scanned (f a) ex rest
  | Failed e p => Failed e p
  | No_fuel => No_fuel
  end.

(** An element in front of the rest of a sequence. *)
Definition scons {A} (a : A) (ex : bool) (r : scan (list A)) : scan (list A) :=
  match r with
  | Scanned l ex' rest => Scanned (a :: l) (ex && ex')%bool rest
  | Failed e p => Failed e p
  | No_fuel => No_fuel
  end.

(** A hexadecimal digit, either case. *)
Definition hex_digit (a : ascii) : option Z :=
  let n := nat_of_ascii a in
  match char_digit a with
  | Some d => Some d
  | None =>
      if (Nat.leb 97 n && Nat.leb n 102)%bool then Some (Z.of_nat n - 87)%Z
      else if (Nat.leb 65 n && Nat.leb n 70)%bool then Some (Z.of_nat n - 55)%Z
      else None
  end.

Definition hex4 (h1 h2 h3 h4 : ascii) : option Z :=
  match hex_digit h1, hex_digit h2, hex_digit h3, hex_digit h4 with
  | Some a, Some b, Some c, Some d => Some (((a * 16 + b) * 16 + c) * 16 + d)%Z
  | _, _, _, _ => None
  end.

(** The character a one-letter escape stands for. *)
Definition short_escape (e : ascii) : option ascii :=
  if Ascii.eqb e quote then Some quote
  else if Ascii.eqb e bslash then Some bslash
  else if Ascii.eqb e "/" then Some "/"%char
  else if Ascii.eqb e "b" then Some "008"%char
  else if Ascii.eqb e "f" then Some "012"%char
  else if Ascii.eqb e "n" then Some "010"%char
  else if Ascii.eqb e "r" then Some "013"%char
  else if Ascii.eqb e "t" then Some "009"%char
  else None.

(** [scanstring] (strict), from after the opening quote [begin]: the
    characters up to the closing quote.  A [\uXXXX] escape needs its four
    digits and one more character; a character beyond [U+00FF] leaves
    the model (a surrogate pair is two such characters). *)
Fixpoint scan_chars (begin cs : list ascii) : scan (list ascii) :=
  match cs with
  | [] => Failed Unterminated_string begin
  | c :: t =>
      if Ascii.eqb c quote then Scanned [] true t
      else if Ascii.eqb c bslash then
        match t with
        | [] => Failed Unterminated_string begin
        | e :: t' =>
            if Ascii.eqb e "u" then
              match t' with
              | h1 :: h2 :: h3 :: h4 :: ((_ :: _) as r) =>
                  match hex4 h1 h2 h3 h4 with
                  | Some code =>
                      if Z.ltb code 256
                      then scons (ascii_of_nat (Z.to_nat code)) true (scan_chars begin r)
                      else scons "?"%char false (scan_chars begin r)
                  | None => Failed Invalid_uXXXX t
                  end
              | _ => Failed Invalid_uXXXX t
              end
            else
              match short_escape e with
              | Some a => scons a true (scan_chars begin t')
              | None => Failed Invalid_escape cs
              end
        end
      else if Nat.ltb (nat_of_ascii c) 32 then Failed Invalid_control cs
      else scons c true (scan_chars begin t)
  end.

Definition is_digit_char (a : ascii) : bool :=
  match char_digit a with Some _ => true | None => false end.

(** The interpreter's limit on the digits of an [int] it converts. *)
Definition int_max_str_digits : nat := 4300.

(** [_match_number_unicode]: an optional minus sign, then [0] or a digit
    [1-9] and more digits, then optionally a point and one or more
    digits, then optionally [e] or [E], an optional sign and one or more
    digits (without its digits the exponent is not part of the number).
    An [int] when there is neither fraction nor exponent.  The four
    stages: *)
Definition scan_minus (cs : list ascii) : Z * list ascii :=
  match cs with
  | a :: t => if Ascii.eqb a "-" then ((-1)%Z, t) else (1%Z, cs)
  | [] => (1%Z, [])
  end.

Definition scan_int_part (cs : list ascii) : option (list Z * list ascii) :=
  match cs with
  | a :: t =>
      match char_digit a with
      | Some 0%Z => Some ([0%Z], t)
      | Some d => let '(ds, r) := span_digits t in Some (d :: ds, r)
      | None => None
      end
  | [] => None
  end.

Definition scan_frac (cs : list ascii) : list Z * list ascii :=
  match cs with
  | a :: ((b :: _) as t) =>
      if (Ascii.eqb a "." && is_digit_char b)%bool then span_digits t else ([], cs)
  | _ => ([], cs)
  end.

Definition scan_exp (cs : list ascii) : option Z * list ascii :=
  match cs with
  | a :: t =>
      if (Ascii.eqb a "e" || Ascii.eqb a "E")%bool then
        let '(esg, t') := parse_sign t in
        match span_digits t' with
        | ((_ :: _) as ds, r) => (Some (esg * value_be ds)%Z, r)
        | ([], _) => (None, cs)
        end
      else (None, cs)
  | [] => (None, [])
  end.

Definition scan_number (cs : list ascii) : scan json :=
  let '(sg, cs1) := scan_minus cs in
  match scan_int_part cs1 with
  | None => Failed Expecting_value cs
  | Some (ip, cs2) =>
      let '(fp, cs3) := scan_frac cs2 in
      let '(ex, cs4) := scan_exp cs3 in
      match fp, ex with
      | [], None =>
          if Nat.ltb int_max_str_digits (length ip) then Failed (Int_limit (length ip)) cs
          else Scanned (JInt (sg * value_be ip)) true cs4
      | _, _ =>
          let e := match ex with Some e => e | None => 0%Z end in
          Scanned (JNum (scale (sg * value_be (ip ++ fp)) (e - Z.of_nat (length fp)))) true cs4
      end
  end.

(** The text [p] at the front of [cs]: the rest after it. *)
Fixpoint strip_prefix (p cs : list ascii) : option (list ascii) :=
  match p, cs with
  | [], _ => Some cs
  | a :: p', b :: cs' => if Ascii.eqb a b then strip_prefix p' cs' else None
  | _ :: _, [] => None
  end.

(** The named constants of [scan_once], then a number. *)
Definition scan_literal (cs : list ascii) : scan json :=
  match strip_prefix (list_ascii_of_string "null") cs with
  | Some r => Scanned JNull true r
  | None =>
  match strip_prefix (list_ascii_of_string "true") cs with
  | Some r => Scanned (JBool true) true r
  | None =>
  match strip_prefix (list_ascii_of_string "false") cs with
  | Some r => Scanned (JBool false) true r
  | None =>
  match strip_prefix (list_ascii_of_string "NaN") cs with
  | Some r => Scanned JNull false r
  | None =>
  match strip_prefix (list_ascii_of_string "Infinity") cs with
  | Some r => Scanned JNull false r
  | None =>
  match strip_prefix (list_ascii_of_string "-Infinity") cs with
  | Some r => Scanned JNull false r
  | None => scan_number cs
  end end end end end end.

(** [scan_once] at a value, [_parse_array] from after the bracket and the
    white space behind it, at an element, and [_parse_object] at a key.
    Each call takes one unit of fuel. *)
Fixpoint scan_value (fuel : nat) (cs : list ascii) {struct fuel} : scan json :=
  match fuel with
  | O => No_fuel
  | S f =>
      match cs with
      | [] => Failed Expecting_value []
      | c :: t =>
          if Ascii.eqb c quote then smap (fun l => JStr (string_of_list_ascii l)) (scan_chars cs t)
          else if Ascii.eqb c "{" then
            match skip_ws t with
            | d :: r => if Ascii.eqb d "}" then Scanned (JObj []) true r
                        else smap JObj (scan_members f (d :: r))
            | [] => smap JObj (scan_members f [])
            end
          else if Ascii.eqb c "[" then
            match skip_ws t with
            | d :: r => if Ascii.eqb d "]" then Scanned (JArr []) true r
                        else smap JArr (scan_items f (d :: r))
            | [] => smap JArr (scan_items f [])
            end
          else scan_literal cs
      end
  end
with scan_items (fuel : nat) (cs : list ascii) {struct fuel} : scan (list json) :=
  match fuel with
  | O => No_fuel
  | S f =>
      match scan_value f cs with
      | Scanned v ex r =>
          match skip_ws r with
          | d :: r' =>
              if Ascii.eqb d "]" then Scanned [v] ex r'
              else if Ascii.eqb d "," then scons v ex (scan_items f (skip_ws r'))
              else Failed Expecting_comma (d :: r')
          | [] => Failed Expecting_comma []
          end
      | Failed e p => Failed e p
      | No_fuel => No_fuel
      end
  end
with scan_members (fuel : nat) (cs : list ascii) {struct fuel} : scan (list (string * json)) :=
  match fuel with
  | O => No_fuel
  | S f =>
      match cs with
      | c :: t =>
          if Ascii.eqb c quote then
            match scan_chars cs t with
            | Scanned k exk r =>
                match skip_ws r with
                | d :: r' =>
                    if Ascii.eqb d ":" then
                      match scan_value f (skip_ws r') with
                      | Scanned v ex r2 =>
                          match skip_ws r2 with
                          | g :: r3 =>
                              if Ascii.eqb g "}"
                              then Scanned [(string_of_list_ascii k, v)] (exk && ex)%bool r3
                              else if Ascii.eqb g ","
                              then scons (string_of_list_ascii k, v) (exk && ex)%bool
                                     (scan_members f (skip_ws r3))
                              else Failed Expecting_comma (g :: r3)
                          | [] => Failed Expecting_comma []
                          end
                      | Failed e p => Failed e p
                      | No_fuel => No_fuel
                      end
                    else Failed Expecting_colon (d :: r')
                | [] => Failed Expecting_colon []
                end
            | Failed e p => Failed e p
            | No_fuel => No_fuel
            end
          else Failed Expecting_property_name cs
      | [] => Failed Expecting_property_name []
      end
  end.

(** [str(e)] of the error: the message, then for a [JSONDecodeError] the
    line, the column and the index of the character it points at. *)
Definition show_nat (n : nat) : string := show_Z (Z.of_nat n).

Definition lineno (before : list ascii) : nat :=
  S (length (filter (fun a => Ascii.eqb a newline) before)).

Definition colno (before : list ascii) : nat :=
  fold_left (fun (c : nat) a => if Ascii.eqb a newline then 1%nat else S c) before 1%nat.

Definition error_text (doc : list ascii) (e : jerr) (at_ : list ascii) : string :=
  match e with
  | Int_limit n =>
      jerr_msg e ++ ": value has " ++ show_nat n
      ++ " digits; use sys.set_int_max_str_digits() to increase the limit"
  | _ =>
      let pos := length doc - length at_ in
      let before := firstn pos doc in
      jerr_msg e ++ ": line " ++ show_nat (lineno before) ++ " column "
      ++ show_nat (colno before) ++ " (char " ++ show_nat pos ++ ")"
  end%string.

(** [json.loads(s)]: white space, one value, white space, and nothing
    more.  [None] when the value is outside the model. *)
Definition loads (s : string) : option (outcome json) :=
  let doc := list_ascii_of_string s in
  match scan_value (S (2 * length doc)) (skip_ws doc) with
  | Scanned v ex r =>
      match skip_ws r with
      | [] => if ex then Some (Ret v) else None
      | r' => Some (Raise (ValueError (error_text doc Extra_data r')))
      end
  | Failed e p => Some (Raise (ValueError (error_text doc e p)))
  | No_fuel => Some (Raise (ValueError (error_text doc Expecting_value doc)))
  end.

End JsonDecode.

Module JsonEncode.
Import Digits Json JsonDecode.

(** A lower-case hexadecimal digit. *)
Definition hex_char (d : Z) : ascii :=
  if Z.ltb d 10 then digit_char d else ascii_of_nat (87 + Z.to_nat d).

(** [encode_basestring_ascii] on one character: the quote, the backslash
    and the five control characters with a one-letter escape are escaped
    by it, every other character outside space to tilde by [\u00XX]. *)
Definition encode_char (a : ascii) : list ascii :=
  let n := nat_of_ascii a in
  if Ascii.eqb a quote then [bslash; quote]
  else if Ascii.eqb a bslash then [bslash; bslash]
  else if Ascii.eqb a "008" then [bslash; "b"%char]
  else if Ascii.eqb a "012" then [bslash; "f"%char]
  else if Ascii.eqb a "010" then [bslash; "n"%char]
  else if Ascii.eqb a "013" then [bslash; "r"%char]
  else if Ascii.eqb a "009" then [bslash; "t"%char]
  else if (Nat.ltb n 32 || Nat.leb 127 n)%bool then
    [bslash; "u"%char; "0"%char; "0"%char; hex_char (Z.of_nat n / 16); hex_char (Z.of_nat n mod 16)]
  else [a].

Definition encode_string (s : string) : list ascii :=
  quote :: flat_map encode_char (list_ascii_of_string s) ++ [quote].

(** [int.__repr__]; beyond the conversion limit it raises [ValueError],
    which leaves the model. *)
Definition int_repr (z : Z) : option (list ascii) :=
  let ds := map digit_char (rev (digits_le (Z.abs z))) in
  if Nat.ltb int_max_str_digits (length ds) then None
  else Some (if Z.ltb z 0 then "-"%char :: ds else ds).

Definition join (sep : list ascii) (xs : list (list ascii)) : list ascii :=
  match xs with
  | [] => []
  | x :: xs' => x ++ flat_map (fun y => sep ++ y) xs'
  end.

Definition item_sep : list ascii := [","; " "]%char.
Definition key_sep : list ascii := [":"; " "]%char.

(** The keys of a dict are distinct. *)
Fixpoint distinct_keys (kvs : list (string * json)) : bool :=
  match kvs with
  | [] => true
  | (k, _) :: kvs' => negb (existsb (fun kv => String.eqb k (fst kv)) kvs') && distinct_keys kvs'
  end.

(** Every element printed, or none. *)
Fixpoint all_some {A} (l : list (option A)) : option (list A) :=
  match l with
  | [] => Some []
  | Some a :: l' => option_map (cons a) (all_some l')
  | None :: _ => None
  end.

(** [json.dumps(v)] with the default separators.  A float ([float.__repr__]
    is not modelled) and a list of pairs with a repeated key (no Python
    dict) have no text in the model. *)
Fixpoint dumps_l (v : json) : option (list ascii) :=
  match v with
  | JNull => Some (list_ascii_of_string "null")
  | JBool b => Some (list_ascii_of_string (if b then "true" else "false"))
  | JInt z => int_repr z
  | JNum _ => None
  | JStr s => Some (encode_string s)
  | JArr l =>
      option_map (fun xs => "["%char :: join item_sep xs ++ ["]"%char]) (all_some (map dumps_l l))
  | JObj kvs =>
      if distinct_keys kvs
      then option_map (fun xs => "{"%char :: join item_sep xs ++ ["}"%char])
             (all_some (map (fun '(k, x) =>
                               option_map (fun a => encode_string k ++ key_sep ++ a) (dumps_l x))
                             kvs))
      else None
  end.

Definition dumps (v : json) : option string := option_map string_of_list_ascii (dumps_l v).

End JsonEncode.

(** ** Termination and the round trip *)

Module JsonTextFacts.
Import Digits Parse Facts Json JsonDecode JsonEncode.

Lemma skip_ws_length cs : length (skip_ws cs) <= length cs.
Proof. induction cs as [|a t IH]; cbn; [lia|destruct (is_ws a); cbn; lia]. Qed.

Lemma span_digits_length t : length (snd (span_digits t)) <= length t.
Proof.
  induction t as [|a t IH]; [reflexivity|]. rewrite span_digits_cons.
  destruct (char_digit a); [destruct (span_digits t); cbn in *; lia|cbn; lia].
Qed.

Lemma strip_prefix_length p cs r : strip_prefix p cs = Some r -> length r + length p = length cs.
Proof.
  revert cs. induction p as [|a p IH]; intros [|b cs] H; cbn in H; try discriminate.
  - injection H as <-. cbn. lia.
  - injection H as <-. cbn. lia.
  - destruct (Ascii.eqb a b); [apply IH in H; cbn; lia|discriminate].
Qed.

Lemma scons_scanned {A} (a : A) e x l ex r :
  scons a e x = Scanned l ex r -> exists l0 e0, x = Scanned l0 e0 r.
Proof. destruct x; cbn; intros H; [injection H as _ _ <-; eauto|discriminate|discriminate]. Qed.

Lemma smap_scanned {A B} (f : A -> B) x b ex r :
  smap f x = Scanned b ex r -> exists a, x = Scanned a ex r.
Proof. destruct x; cbn; intros H; [injection H as _ <- <-; eauto|discriminate|discriminate]. Qed.

Lemma scons_no_fuel {A} (a : A) e x : scons a e x = No_fuel -> x = No_fuel.
Proof. destruct x; cbn; congruence. Qed.

Lemma smap_no_fuel {A B} (f : A -> B) x : smap f x = No_fuel -> x = No_fuel.
Proof. destruct x; cbn; congruence. Qed.

(** A string scan consumes at least its closing quote. *)
Lemma scan_chars_shorter b cs l ex r : scan_chars b cs = Scanned l ex r -> length r < length cs.
Proof.
  revert l ex r. induction cs as [cs IH] using (induction_ltof1 _ (@length ascii)).
  unfold ltof in IH. intros l ex r H. destruct cs as [|c t]; cbn in H; [discriminate|].
  destruct (Ascii.eqb c quote); [injection H as _ _ <-; cbn; lia|].
  destruct (Ascii.eqb c bslash).
  - destruct t as [|e t']; [discriminate|].
    destruct (Ascii.eqb e "u").
    + destruct t' as [|h1 [|h2 [|h3 [|h4 [|x r']]]]]; try discriminate.
      destruct (hex4 h1 h2 h3 h4); [|discriminate].
      destruct (Z.ltb _ 256); apply scons_scanned in H as (l0 & e0 & H);
        apply IH in H; cbn in *; lia.
    + destruct (short_escape e); [|discriminate].
      apply scons_scanned in H as (l0 & e0 & H). apply IH in H; cbn in *; lia.
  - destruct (nat_of_ascii c <=? 31); [discriminate|].
    apply scons_scanned in H as (l0 & e0 & H). apply IH in H; cbn in *; lia.
Qed.

Lemma scan_minus_length cs : length (snd (scan_minus cs)) <= length cs.
Proof. destruct cs as [|a t]; cbn; [lia|destruct (Ascii.eqb a "-"); cbn; lia]. Qed.

Lemma scan_int_part_length cs ip r : scan_int_part cs = Some (ip, r) -> length r < length cs.
Proof.
  destruct cs as [|a t]; cbn; [discriminate|].
  pose proof (span_digits_length t) as Hl.
  destruct (char_digit a) as [[|d|d]|]; intros H; try discriminate;
    [injection H as _ <-; lia|..];
    destruct (span_digits t) eqn:E; injection H as _ <-; cbn in *; lia.
Qed.

Lemma scan_frac_length cs : length (snd (scan_frac cs)) <= length cs.
Proof.
  destruct cs as [|a [|b t]]; cbn; try lia.
  destruct (Ascii.eqb a "." && is_digit_char b)%bool; cbn; [|lia].
  pose proof (span_digits_length (b :: t)). cbn in *. lia.
Qed.

Lemma scan_exp_length cs : length (snd (scan_exp cs)) <= length cs.
Proof.
  destruct cs as [|a t]; cbn; [lia|].
  destruct (Ascii.eqb a "e" || Ascii.eqb a "E")%bool; cbn; [|lia].
  destruct (parse_sign t) as [esg t'] eqn:Es.
  assert (length t' <= length t).
  { destruct t as [|x t]; cbn in Es; [injection Es as _ <-; cbn; lia|].
    destruct (Ascii.eqb x "+"); [injection Es as _ <-; cbn; lia|].
    destruct (Ascii.eqb x "-"); injection Es as _ <-; cbn; lia. }
  pose proof (span_digits_length t').
  destruct (span_digits t') as [[|d ds] r]; cbn in *; lia.
Qed.

Lemma scan_number_shorter cs v ex r : scan_number cs = Scanned v ex r -> length r < length cs.
Proof.
  unfold scan_number. pose proof (scan_minus_length cs) as H1.
  destruct (scan_minus cs) as [sg cs1]. cbv beta iota in *. cbn [snd] in H1.
  destruct (scan_int_part cs1) as [[ip cs2]|] eqn:E2; [|discriminate].
  apply scan_int_part_length in E2. pose proof (scan_frac_length cs2) as H3.
  destruct (scan_frac cs2) as [fp cs3]. cbv beta iota in *. cbn [snd] in H3.
  pose proof (scan_exp_length cs3) as H4.
  destruct (scan_exp cs3) as [e cs4]. cbv beta iota in *. cbn [snd] in H4.
  destruct fp, e; try destruct (Nat.ltb int_max_str_digits (length ip)); intros Hs;
    try discriminate; injection Hs as _ _ <-; lia.
Qed.

Lemma scan_literal_shorter cs v ex r : scan_literal cs = Scanned v ex r -> length r < length cs.
Proof.
  unfold scan_literal.
  repeat match goal with
  | |- context [strip_prefix ?p cs] =>
      let E := fresh "E" in
      destruct (strip_prefix p cs) eqn:E;
      [apply strip_prefix_length in E; cbn in E; intros H; injection H as _ _ <-; lia|]
  end.
  apply scan_number_shorter.
Qed.

(** [skip_ws] on a list it turned into [d :: r]. *)
Lemma skip_ws_cons_length cs d r : skip_ws cs = d :: r -> length r < length cs.
Proof. intros E. pose proof (skip_ws_length cs) as H. rewrite E in H. cbn in H. lia. Qed.

(** Each successful scan consumes input. *)
Lemma scan_progress f :
  (forall cs v ex r, scan_value f cs = Scanned v ex r -> length r < length cs)
  /\ (forall cs l ex r, scan_items f cs = Scanned l ex r -> length r < length cs)
  /\ (forall cs l ex r, scan_members f cs = Scanned l ex r -> length r < length cs).
Proof.
  induction f as [|f (IHv & IHi & IHm)]; [repeat split; discriminate|].
  repeat split.
  - intros [|c t] v ex r H; cbn [scan_value] in H; [discriminate|].
    destruct (Ascii.eqb c quote).
    { apply smap_scanned in H as [a H]. apply scan_chars_shorter in H. cbn. lia. }
    destruct (Ascii.eqb c "{").
    { destruct (skip_ws t) as [|d r0] eqn:Es.
      - apply smap_scanned in H as [a H]. apply IHm in H. cbn in H. lia.
      - apply skip_ws_cons_length in Es.
        destruct (Ascii.eqb d "}"); [injection H as _ _ <-; cbn; lia|].
        apply smap_scanned in H as [a H]. apply IHm in H. cbn in *. lia. }
    destruct (Ascii.eqb c "[").
    { destruct (skip_ws t) as [|d r0] eqn:Es.
      - apply smap_scanned in H as [a H]. apply IHi in H. cbn in H. lia.
      - apply skip_ws_cons_length in Es.
        destruct (Ascii.eqb d "]"); [injection H as _ _ <-; cbn; lia|].
        apply smap_scanned in H as [a H]. apply IHi in H. cbn in *. lia. }
    apply scan_literal_shorter in H. exact H.
  - intros cs l ex r H. cbn [scan_items] in H.
    destruct (scan_value f cs) as [v ev r1| |] eqn:Ev; try discriminate.
    apply IHv in Ev. destruct (skip_ws r1) as [|d r2] eqn:Es; [discriminate|].
    apply skip_ws_cons_length in Es.
    destruct (Ascii.eqb d "]"); [injection H as _ _ <-; lia|].
    destruct (Ascii.eqb d ","); [|discriminate].
    apply scons_scanned in H as (l0 & e0 & H). apply IHi in H.
    pose proof (skip_ws_length r2). lia.
  - intros [|c t] l ex r H; cbn [scan_members] in H; [discriminate|].
    destruct (Ascii.eqb c quote); [|discriminate].
    destruct (scan_chars (c :: t) t) as [k ek r1| |] eqn:Ek; try discriminate.
    apply scan_chars_shorter in Ek.
    destruct (skip_ws r1) as [|d r2] eqn:Es; [discriminate|].
    apply skip_ws_cons_length in Es. destruct (Ascii.eqb d ":"); [|discriminate].
    destruct (scan_value f (skip_ws r2)) as [v ev r3| |] eqn:Ev; try discriminate.
    apply IHv in Ev. pose proof (skip_ws_length r2).
    destruct (skip_ws r3) as [|g r4] eqn:Es3; [discriminate|].
    apply skip_ws_cons_length in Es3.
    destruct (Ascii.eqb g "}"); [injection H as _ _ <-; cbn; lia|].
    destruct (Ascii.eqb g ","); [|discriminate].
    apply scons_scanned in H as (l0 & e0 & H). apply IHm in H.
    pose proof (skip_ws_length r4). cbn. lia.
Qed.

Lemma scan_chars_fuel b cs : scan_chars b cs <> No_fuel.
Proof.
  induction cs as [cs IH] using (induction_ltof1 _ (@length ascii)). unfold ltof in IH.
  destruct cs as [|c t]; cbn; [discriminate|].
  destruct (Ascii.eqb c quote); [discriminate|].
  destruct (Ascii.eqb c bslash).
  - destruct t as [|e t']; [discriminate|]. destruct (Ascii.eqb e "u").
    + destruct t' as [|h1 [|h2 [|h3 [|h4 [|x r']]]]]; try discriminate.
      destruct (hex4 h1 h2 h3 h4); [|discriminate].
      destruct (Z.ltb _ 256); intros H; apply scons_no_fuel in H; revert H;
        apply IH; cbn; lia.
    + destruct (short_escape e); [|discriminate].
      intros H; apply scons_no_fuel in H; revert H; apply IH; cbn; lia.
  - destruct (nat_of_ascii c <=? 31); [discriminate|].
    intros H; apply scons_no_fuel in H; revert H; apply IH; cbn; lia.
Qed.

Lemma scan_literal_fuel cs : scan_literal cs <> No_fuel.
Proof.
  unfold scan_literal.
  repeat match goal with
  | |- context [strip_prefix ?p cs] => destruct (strip_prefix p cs); [discriminate|]
  end.
  unfold scan_number. destruct (scan_minus cs) as [sg cs1]. cbv beta iota.
  destruct (scan_int_part cs1) as [[ip cs2]|]; [|discriminate].
  destruct (scan_frac cs2) as [fp cs3]. destruct (scan_exp cs3) as [e cs4]. cbv beta iota.
  destruct fp, e; try destruct (Nat.ltb int_max_str_digits (length ip)); discriminate.
Qed.

(** Fuel twice the length of the text is enough: the scanners never run
    out of it. *)
Lemma scan_fuel_enough f :
  (forall cs, 2 * length cs < f -> scan_value f cs <> No_fuel)
  /\ (forall cs, 2 * length cs + 1 < f -> scan_items f cs <> No_fuel)
  /\ (forall cs, 2 * length cs + 1 < f -> scan_members f cs <> No_fuel).
Proof.
  induction f as [|f (IHv & IHi & IHm)]; [repeat split; intros; lia|].
  destruct (scan_progress f) as (Pv & _ & _).
  repeat split.
  - intros [|c t] Hf; cbn [scan_value]; [discriminate|]. cbn [length] in Hf.
    destruct (Ascii.eqb c quote).
    { intros Hn. apply smap_no_fuel in Hn. revert Hn. apply scan_chars_fuel. }
    destruct (Ascii.eqb c "{").
    { destruct (skip_ws t) as [|d r0] eqn:Es.
      - intros Hn. apply smap_no_fuel in Hn. revert Hn. apply IHm. cbn. lia.
      - pose proof (skip_ws_length t) as Hl. rewrite Es in Hl.
        destruct (Ascii.eqb d "}"); [discriminate|].
        intros Hn. apply smap_no_fuel in Hn. revert Hn. apply IHm. lia. }
    destruct (Ascii.eqb c "[").
    { destruct (skip_ws t) as [|d r0] eqn:Es.
      - intros Hn. apply smap_no_fuel in Hn. revert Hn. apply IHi. cbn. lia.
      - pose proof (skip_ws_length t) as Hl. rewrite Es in Hl.
        destruct (Ascii.eqb d "]"); [discriminate|].
        intros Hn. apply smap_no_fuel in Hn. revert Hn. apply IHi. lia. }
    apply scan_literal_fuel.
  - intros cs Hf. cbn [scan_items].
    destruct (scan_value f cs) as [v ev r1| |] eqn:Ev; [|discriminate|].
    + apply Pv in Ev. destruct (skip_ws r1) as [|d r2] eqn:Es; [discriminate|].
      apply skip_ws_cons_length in Es.
      destruct (Ascii.eqb d "]"); [discriminate|].
      destruct (Ascii.eqb d ","); [|discriminate].
      intros Hn. apply scons_no_fuel in Hn. revert Hn. apply IHi.
      pose proof (skip_ws_length r2). lia.
    + exfalso. revert Ev. apply IHv. lia.
  - intros [|c t] Hf; cbn [scan_members]; [discriminate|]. cbn [length] in Hf.
    destruct (Ascii.eqb c quote); [|discriminate].
    destruct (scan_chars (c :: t) t) as [k ek r1| |] eqn:Ek; try discriminate.
    + apply scan_chars_shorter in Ek.
      destruct (skip_ws r1) as [|d r2] eqn:Es; [discriminate|].
      apply skip_ws_cons_length in Es. destruct (Ascii.eqb d ":"); [|discriminate].
      pose proof (skip_ws_length r2).
      destruct (scan_value f (skip_ws r2)) as [v ev r3| |] eqn:Ev; [|discriminate|].
      * apply Pv in Ev. destruct (skip_ws r3) as [|g r4] eqn:Es3; [discriminate|].
        apply skip_ws_cons_length in Es3.
        destruct (Ascii.eqb g "}"); [discriminate|].
        destruct (Ascii.eqb g ","); [|discriminate].
        intros Hn. apply scons_no_fuel in Hn. revert Hn. apply IHm.
        pose proof (skip_ws_length r4). lia.
      * exfalso. revert Ev. apply IHv. lia.
    + exfalso. revert Ek. apply scan_chars_fuel.
Qed.

(** Adequacy of the fuel: the fuel [loads] gives the scanner,
    one more than twice the length of the text, never runs out, whatever
    the text; the decoder always ends with a value or an error of the
    scanner. *)
Lemma loads_fuel_suffices s :
  let doc := list_ascii_of_string s in
  scan_value (S (2 * length doc)) (skip_ws doc) <> No_fuel.
Proof.
  intros doc. apply (scan_fuel_enough (S (2 * length doc))).
  pose proof (skip_ws_length doc). lia.
Qed.

(** The scanner reads back what the encoder writes for each of the 256
    characters, whatever follows (at least the closing quote does). *)
Lemma scan_chars_encode_char b a x t :
  scan_chars b (encode_char a ++ x :: t) = scons a true (scan_chars b (x :: t)).
Proof. destruct a as [[] [] [] [] [] [] [] []]; reflexivity. Qed.

Lemma scan_chars_encoded b l rest :
  scan_chars b (flat_map encode_char l ++ quote :: rest) = Scanned l true rest.
Proof.
  induction l as [|a l IH]; [reflexivity|].
  cbn [flat_map]. rewrite <- app_assoc.
  destruct (flat_map encode_char l ++ quote :: rest) as [|x t] eqn:E.
  - destruct (flat_map encode_char l); discriminate.
  - rewrite scan_chars_encode_char, IH. reflexivity.
Qed.

Lemma scan_value_string f s rest :
  scan_value (S f) (encode_string s ++ rest)
  = Scanned (JStr s) true rest.
Proof.
  unfold encode_string. cbn [app scan_value]. rewrite Ascii.eqb_refl, <- app_assoc.
  cbn [app]. rewrite scan_chars_encoded. cbn [smap].
  rewrite string_of_list_ascii_of_string. reflexivity.
Qed.

(** The most significant digit of a positive number is not zero. *)
Lemma dbl_last c ds :
  Forall is_digit ds -> (0 <= c <= 1)%Z -> ds <> [] -> last ds 0%Z <> 0%Z ->
  last (dbl c ds) 0%Z <> 0%Z.
Proof.
  intros Hds. revert c. induction Hds as [|d t Hd Ht IH]; intros c Hc Hne Hl; [congruence|].
  unfold is_digit in Hd. destruct t as [|d' t].
  - cbn [last] in Hl.
    change (dbl c [d]) with (((2 * d + c) mod 10)%Z :: dbl ((2 * d + c) / 10)%Z []).
    cbn [dbl].
    match goal with |- context [Z.eqb ?q 0] => destruct (Z.eqb_spec q 0) as [H0|H0] end.
    + cbn [last]. Z.div_mod_to_equations. lia.
    + exact H0.
  - set (x := (2 * d + c)%Z).
    change (dbl c (d :: d' :: t)) with ((x mod 10)%Z :: dbl (x / 10)%Z (d' :: t)).
    destruct (dbl_spec (d' :: t) (x / 10) Ht) as (_ & _ & Hn);
      [unfold x; Z.div_mod_to_equations; lia|].
    destruct (dbl (x / 10) (d' :: t)) as [|y ys] eqn:E; [exfalso; now apply Hn|].
    change (last ((x mod 10)%Z :: y :: ys) 0%Z) with (last (y :: ys) 0%Z). rewrite <- E.
    apply IH; [unfold x; Z.div_mod_to_equations; lia|discriminate|exact Hl].
Qed.

Lemma digits_pos_last p : last (digits_pos p) 0%Z <> 0%Z.
Proof.
  induction p as [p IH|p IH|]; cbn [digits_pos]; try discriminate;
    destruct (digits_pos_spec p) as (Hf & _ & Hn); apply dbl_last; auto; lia.
Qed.

(** What may follow a value in the text [dumps] writes. *)
Definition value_end (rest : list ascii) : Prop :=
  match rest with
  | [] => True
  | a :: _ => a = ","%char \/ a = "]"%char \/ a = "}"%char
  end.

Lemma value_end_not_digit rest :
  value_end rest -> match rest with a :: _ => char_digit a = None | [] => True end.
Proof. destruct rest as [|a t]; [trivial|]. intros [-> | [-> | ->]]; reflexivity. Qed.

Lemma scan_value_digit f d t :
  is_digit d -> scan_value (S f) (digit_char d :: t) = scan_number (digit_char d :: t).
Proof. intros H. by_digit_cases H. Qed.

Lemma scan_value_minus f d t :
  is_digit d -> scan_value (S f) ("-"%char :: digit_char d :: t) = scan_number ("-"%char :: digit_char d :: t).
Proof. intros H. by_digit_cases H. Qed.

Lemma scan_minus_digit d t : is_digit d -> scan_minus (digit_char d :: t) = (1%Z, digit_char d :: t).
Proof. intros H. by_digit_cases H. Qed.

(** The integer part is the longest run of digits, a single [0] apart. *)
Lemma scan_int_part_digits d ds rest :
  is_digit d -> Forall is_digit ds -> (d = 0%Z -> ds = []) -> value_end rest ->
  scan_int_part (map digit_char (d :: ds) ++ rest) = Some (d :: ds, rest).
Proof.
  intros Hd Hds H0 Hr. cbn [map app scan_int_part]. rewrite char_digit_char by exact Hd.
  unfold is_digit in Hd. destruct d as [|p|p]; [|cbv iota|lia].
  - rewrite H0 by reflexivity. reflexivity.
  - rewrite span_digits_digits; [reflexivity|exact Hds|exact (value_end_not_digit rest Hr)].
Qed.

(** The digits [int_repr] prints: the most significant one first, not
    zero unless the number is. *)
Lemma digits_le_rev n :
  (0 <= n)%Z -> exists d ds, rev (digits_le n) = d :: ds /\ is_digit d /\ Forall is_digit ds
    /\ (d = 0%Z -> ds = []) /\ value_be (d :: ds) = n.
Proof.
  intros Hn. destruct (digits_le_spec n Hn) as (Hf & Hv & Hne).
  exists (last (digits_le n) 0%Z), (rev (removelast (digits_le n))).
  assert (Hrev : rev (digits_le n) = last (digits_le n) 0%Z :: rev (removelast (digits_le n))).
  { rewrite (app_removelast_last 0%Z Hne) at 1. rewrite rev_app_distr. reflexivity. }
  apply Forall_rev in Hf. rewrite Hrev in Hf. inversion Hf as [|? ? Hd Hds]; subst.
  refine (conj Hrev (conj Hd (conj Hds (conj _ _)))).
  - intros H0. destruct n as [|p|p]; [reflexivity| |lia].
    exfalso. exact (digits_pos_last p H0).
  - rewrite <- Hrev, value_be_rev. exact Hv.
Qed.

Lemma scan_exp_end rest : value_end rest -> scan_exp rest = (None, rest).
Proof. destruct rest as [|a t]; [reflexivity|]. intros [-> | [-> | ->]]; reflexivity. Qed.

Lemma scan_frac_end rest : value_end rest -> scan_frac rest = ([], rest).
Proof. destruct rest as [|a [|b t]]; try reflexivity; intros [-> | [-> | ->]]; reflexivity. Qed.

Lemma scan_value_int f z s rest :
  int_repr z = Some s -> value_end rest -> scan_value (S f) (s ++ rest) = Scanned (JInt z) true rest.
Proof.
  unfold int_repr. intros Hs Hr.
  destruct (digits_le_rev (Z.abs z)) as (d & ds & Hrev & Hd & Hds & H0 & Hv); [lia|].
  rewrite Hrev in Hs. set (D := map digit_char (d :: ds)) in Hs.
  destruct (Nat.ltb int_max_str_digits (length D)) eqn:Hlim; [discriminate|].
  injection Hs as <-.
  assert (Hnum : forall sg cs, (sg = -1 \/ sg = 1)%Z -> (sg * Z.abs z = z)%Z ->
             scan_minus cs = (sg, D ++ rest) -> scan_number cs = Scanned (JInt z) true rest).
  { intros sg cs Hsg Hz Hm. unfold scan_number. rewrite Hm. cbv beta iota.
    unfold D. rewrite scan_int_part_digits by assumption. cbv beta iota.
    rewrite scan_frac_end, scan_exp_end by exact Hr. cbv beta iota.
    unfold D in Hlim. rewrite length_map in Hlim. rewrite Hlim, Hv, Hz. reflexivity. }
  destruct (Z.ltb_spec z 0).
  - cbn [app]. unfold D. cbn [map app]. rewrite scan_value_minus by exact Hd.
    apply (Hnum (-1)%Z); [lia|lia|reflexivity].
  - unfold D. cbn [map app]. rewrite scan_value_digit by exact Hd.
    apply (Hnum 1%Z); [lia|lia|]. rewrite scan_minus_digit by exact Hd. reflexivity.
Qed.

(** Lengths of appended and consed lists as sums, for [lia]. *)
Ltac len_norm := repeat (first [rewrite length_app in * | progress cbn [length] in *]).

(** Induction on a value through the elements of its lists and dicts. *)
Section JsonInd.
Variable P : json -> Prop.
Hypothesis HNull : P JNull.
Hypothesis HBool : forall b, P (JBool b).
Hypothesis HInt : forall z, P (JInt z).
Hypothesis HNum : forall q, P (JNum q).
Hypothesis HStr : forall s, P (JStr s).
Hypothesis HArr : forall l, Forall P l -> P (JArr l).
Hypothesis HObj : forall kvs, Forall (fun kv => P (snd kv)) kvs -> P (JObj kvs).

Fixpoint json_ind' (v : json) : P v :=
  match v with
  | JNull => HNull
  | JBool b => HBool b
  | JInt z => HInt z
  | JNum q => HNum q
  | JStr s => HStr s
  | JArr l =>
      HArr l ((fix go (l : list json) : Forall P l :=
                 match l with
                 | [] => Forall_nil P
                 | x :: l' => @Forall_cons _ P x l' (json_ind' x) (go l')
                 end) l)
  | JObj kvs =>
      HObj kvs ((fix go (kvs : list (string * json)) : Forall (fun kv => P (snd kv)) kvs :=
                   match kvs with
                   | [] => Forall_nil _
                   | (k, x) :: kvs' => @Forall_cons _ (fun kv => P (snd kv)) (k, x) kvs'
                                         (json_ind' x) (go kvs')
                   end) kvs)
  end.
End JsonInd.

Lemma all_some_Forall2 {A B} (g : A -> option B) l xs :
  all_some (map g l) = Some xs -> Forall2 (fun a b => g a = Some b) l xs.
Proof.
  revert xs. induction l as [|a l IH]; intros xs H; cbn in H.
  - injection H as <-. constructor.
  - destruct (g a) as [b|] eqn:Eg; [|discriminate].
    destruct (all_some (map g l)) as [ys|]; cbn in H; [|discriminate].
    injection H as <-. constructor; auto.
Qed.

Lemma join_one sep x : join sep [x] = x.
Proof. cbn. apply app_nil_r. Qed.

Lemma join_cons2 sep x y ys : join sep (x :: y :: ys) = x ++ sep ++ join sep (y :: ys).
Proof. cbn [join flat_map]. rewrite <- !app_assoc. reflexivity. Qed.

Lemma skip_ws_nonws c t r : is_ws c = false -> skip_ws ((c :: t) ++ r) = (c :: t) ++ r.
Proof. intros H. cbn [app skip_ws]. rewrite H. reflexivity. Qed.

(** A character that can start a value: not white space, and not the
    bracket or brace that closes an empty list or dict. *)
Definition starts_value (c : ascii) : bool :=
  negb (is_ws c) && negb (Ascii.eqb c "]") && negb (Ascii.eqb c "}").

Lemma digit_char_starts d : is_digit d -> starts_value (digit_char d) = true.
Proof. intros H. by_digit_cases H. Qed.

Lemma starts_value_ws c : starts_value c = true -> is_ws c = false.
Proof. unfold starts_value. destruct (is_ws c); [discriminate|reflexivity]. Qed.

(** The text [dumps] writes starts with a character that can start a
    value. *)
Lemma dumps_l_head v s : dumps_l v = Some s -> exists c t, s = c :: t /\ starts_value c = true.
Proof.
  destruct v as [| [] | z | q | str | l | kvs]; cbn [dumps_l]; intros H;
    try (injection H as <-; eexists _, _; split; reflexivity).
  - unfold int_repr in H.
    destruct (digits_le_rev (Z.abs z)) as (d & ds & Hrev & Hd & _); [lia|].
    rewrite Hrev in H. destruct (Nat.ltb _ _); [discriminate|]. injection H as <-.
    destruct (Z.ltb z 0); [eexists _, _; split; reflexivity|].
    eexists _, _. split; [reflexivity|]. apply digit_char_starts, Hd.
  - discriminate.
  - destruct (all_some _); cbn in H; [|discriminate].
    injection H as <-. eexists _, _; split; reflexivity.
  - destruct (distinct_keys kvs); [|discriminate]. destruct (all_some _); cbn in H; [|discriminate].
    injection H as <-. eexists _, _; split; reflexivity.
Qed.

(** What [dumps] writes for one pair of a dict. *)
Definition member_text (kv : string * json) : option (list ascii) :=
  let '(k, x) := kv in option_map (fun a => encode_string k ++ key_sep ++ a) (dumps_l x).

Lemma member_text_head kv s : member_text kv = Some s -> exists c t, s = c :: t /\ starts_value c = true.
Proof.
  destruct kv as [k x]. cbn. destruct (dumps_l x); cbn; intros H; [|discriminate].
  injection H as <-. eexists _, _. split; reflexivity.
Qed.

(** The round trip of one value, whatever may follow it. *)
Definition scans_back (v : json) : Prop :=
  forall s, dumps_l v = Some s -> forall rest, value_end rest ->
  forall f, 2 * length (s ++ rest) < f -> scan_value f (s ++ rest) = Scanned v true rest.

Lemma scan_items_dumps l xs : Forall scans_back l ->
  Forall2 (fun v s => dumps_l v = Some s) l xs -> xs <> [] ->
  forall rest f, 2 * length (join item_sep xs ++ "]"%char :: rest) + 1 < f ->
  scan_items f (join item_sep xs ++ "]"%char :: rest) = Scanned l true rest.
Proof.
  intros Hl H2. induction H2 as [|v s l xs Hv H2 IH]; intros Hne rest f Hf; [congruence|].
  inversion Hl as [|? ? Hbv Hbl]; subst. destruct f as [|f]; [lia|]. cbn [scan_items].
  destruct H2 as [|v' s' l' xs' Hv' H2'].
  - cbn [join flat_map] in *. rewrite app_nil_r in *.
    rewrite (Hbv s Hv ("]"%char :: rest) (or_intror (or_introl eq_refl)) f) by lia.
    reflexivity.
  - rewrite join_cons2 in *. rewrite <- !app_assoc in *. cbn [item_sep app] in *.
    rewrite (Hbv s Hv (","%char :: " "%char :: join item_sep (s' :: xs') ++ "]"%char :: rest)
               (or_introl eq_refl) f) by (rewrite ?length_app in *; cbn in *; lia).
    change (skip_ws (","%char :: " "%char :: join item_sep (s' :: xs') ++ "]"%char :: rest))
      with (","%char :: " "%char :: join item_sep (s' :: xs') ++ "]"%char :: rest).
    cbv iota. cbn [Ascii.eqb Bool.eqb andb].
    change (skip_ws (" "%char :: join item_sep (s' :: xs') ++ "]"%char :: rest))
      with (skip_ws (join item_sep (s' :: xs') ++ "]"%char :: rest)).
    destruct (dumps_l_head v' s' Hv') as (c & t & -> & Hc).
    cbn [join]. rewrite <- app_assoc, skip_ws_nonws by exact (starts_value_ws c Hc). rewrite app_assoc.
    change ((c :: t) ++ flat_map (fun y => item_sep ++ y) xs') with (join item_sep ((c :: t) :: xs')).
    rewrite IH; [reflexivity|exact Hbl|discriminate|].
    pose proof (length_app (join item_sep ((c :: t) :: xs')) ("]"%char :: rest)) as HL.
    repeat rewrite length_app in Hf. cbn [length] in *. lia.
Qed.

(** One printed pair of a dict, then [rest'] after its value. *)
Lemma scan_member f k x sv rest' :
  scans_back x -> dumps_l x = Some sv -> value_end rest' -> 2 * length (sv ++ rest') < f ->
  scan_members (S f) ((encode_string k ++ key_sep ++ sv) ++ rest') =
  match skip_ws rest' with
  | g :: r3 =>
      if Ascii.eqb g "}" then Scanned [(k, x)] true r3
      else if Ascii.eqb g "," then scons (k, x) true (scan_members f (skip_ws r3))
      else Failed Expecting_comma (g :: r3)
  | [] => Failed Expecting_comma []
  end.
Proof.
  intros Hb Hx Hr Hf. destruct (dumps_l_head x sv Hx) as (c & t & Hsv & Hc).
  unfold encode_string, key_sep. rewrite <- !app_assoc. cbn [app].
  rewrite <- !app_assoc. cbn [app scan_members].
  rewrite Ascii.eqb_refl, scan_chars_encoded.
  change (skip_ws (":"%char :: " "%char :: sv ++ rest')) with (":"%char :: " "%char :: sv ++ rest').
  cbv iota. cbn [Ascii.eqb Bool.eqb andb].
  change (skip_ws (" "%char :: sv ++ rest')) with (skip_ws (sv ++ rest')).
  rewrite Hsv at 1. rewrite skip_ws_nonws by exact (starts_value_ws c Hc). rewrite <- Hsv.
  rewrite (Hb sv Hx rest' Hr f Hf), string_of_list_ascii_of_string. reflexivity.
Qed.

Lemma scan_members_dumps kvs xs : Forall (fun kv => scans_back (snd kv)) kvs ->
  Forall2 (fun kv s => member_text kv = Some s) kvs xs -> xs <> [] ->
  forall rest f, 2 * length (join item_sep xs ++ "}"%char :: rest) + 1 < f ->
  scan_members f (join item_sep xs ++ "}"%char :: rest) = Scanned kvs true rest.
Proof.
  intros Hl H2. induction H2 as [|[k x] s kvs xs Hkv H2 IH]; intros Hne rest f Hf; [congruence|].
  inversion Hl as [|? ? Hbx Hbl]; subst. destruct f as [|f]; [lia|]. cbn [snd] in Hbx.
  unfold member_text in Hkv. destruct (dumps_l x) as [sv|] eqn:Hx; [|discriminate].
  assert (Hs : s = encode_string k ++ key_sep ++ sv) by (injection Hkv as Hs; symmetry; exact Hs).
  subst s.
  destruct H2 as [|kv' s' kvs' xs' Hkv' H2'].
  - rewrite join_one in *.
    rewrite (scan_member f k x sv ("}"%char :: rest) Hbx Hx (or_intror (or_intror eq_refl)))
      by (len_norm; lia).
    reflexivity.
  - rewrite join_cons2 in *. set (x0 := encode_string k ++ key_sep ++ sv) in *.
    rewrite <- !app_assoc in *. unfold x0 in *.
    rewrite (scan_member f k x sv (item_sep ++ join item_sep (s' :: xs') ++ "}"%char :: rest)
               Hbx Hx (or_introl eq_refl)) by (len_norm; lia).
    change (skip_ws (item_sep ++ join item_sep (s' :: xs') ++ "}"%char :: rest))
      with (","%char :: " "%char :: join item_sep (s' :: xs') ++ "}"%char :: rest).
    cbv iota. cbn [Ascii.eqb Bool.eqb andb].
    change (skip_ws (" "%char :: join item_sep (s' :: xs') ++ "}"%char :: rest))
      with (skip_ws (join item_sep (s' :: xs') ++ "}"%char :: rest)).
    destruct (member_text_head kv' s' Hkv') as (c & t & -> & Hc).
    cbn [join]. rewrite <- app_assoc, skip_ws_nonws by exact (starts_value_ws c Hc). rewrite app_assoc.
    change ((c :: t) ++ flat_map (fun y => item_sep ++ y) xs') with (join item_sep ((c :: t) :: xs')).
    rewrite IH; [reflexivity|exact Hbl|discriminate|]. assert (length item_sep = 2) by reflexivity. len_norm. lia.
Qed.

Lemma scan_value_open f open close t :
  (open = "["%char /\ close = "]"%char) \/ (open = "{"%char /\ close = "}"%char) ->
  scan_value (S f) (open :: t) =
  match skip_ws t with
  | d :: r =>
      if Ascii.eqb d close then Scanned (if Ascii.eqb open "[" then JArr [] else JObj []) true r
      else if Ascii.eqb open "[" then smap JArr (scan_items f (d :: r))
      else smap JObj (scan_members f (d :: r))
  | [] => if Ascii.eqb open "[" then smap JArr (scan_items f []) else smap JObj (scan_members f [])
  end.
Proof. intros [[-> ->]|[-> ->]]; cbn [scan_value]; destruct (skip_ws t); reflexivity. Qed.

(** A list or dict of printed elements followed by [rest]. *)
Lemma scan_value_collection f open close xs rest
    (inner : list ascii -> nat -> scan json) (v0 v : json) :
  (open = "["%char /\ close = "]"%char /\ v0 = JArr []
     /\ forall r g, inner r g = smap JArr (scan_items g r))
  \/ (open = "{"%char /\ close = "}"%char /\ v0 = JObj []
     /\ forall r g, inner r g = smap JObj (scan_members g r)) ->
  (xs = [] -> v = v0) ->
  Forall (fun s => exists c t, s = c :: t /\ starts_value c = true) xs ->
  (xs <> [] -> 2 * length (join item_sep xs ++ close :: rest) + 1 < f ->
     inner (join item_sep xs ++ close :: rest) f = Scanned v true rest) ->
  2 * length ((open :: join item_sep xs ++ [close]) ++ rest) < S f ->
  scan_value (S f) ((open :: join item_sep xs ++ [close]) ++ rest) = Scanned v true rest.
Proof.
  intros Hoc Hnil Hheads Hin Hf. cbn [app] in *. rewrite <- app_assoc in *. cbn [app] in *.
  rewrite (scan_value_open f open close) by (destruct Hoc as [(-> & -> & _)|(-> & -> & _)]; auto).
  destruct xs as [|x xs'].
  - rewrite Hnil by reflexivity. cbn [join app].
    destruct Hoc as [(-> & -> & -> & _)|(-> & -> & -> & _)]; reflexivity.
  - inversion Hheads as [|? ? (c & t & -> & Hc) _]; subst.
    specialize (Hin ltac:(discriminate)). assert (Hws := starts_value_ws c Hc).
    unfold starts_value in Hc. apply andb_prop in Hc as [Hc Hcl]. apply andb_prop in Hc as [_ Hcb].
    apply negb_true_iff in Hcb, Hcl.
    assert (Hlen : 2 * length (join item_sep ((c :: t) :: xs') ++ close :: rest) + 1 < f)
      by (len_norm; lia).
    specialize (Hin Hlen). cbn [join app skip_ws] in Hin |- *. rewrite Hws.
    destruct Hoc as [(-> & -> & _ & Hi)|(-> & -> & _ & Hi)]; rewrite ?Hcb, ?Hcl;
      cbn [Ascii.eqb Bool.eqb andb]; rewrite <- Hi; exact Hin.
Qed.

Lemma Forall2_heads {A} (P : A -> list ascii -> Prop) l xs :
  (forall a s, P a s -> exists c t, s = c :: t /\ starts_value c = true) ->
  Forall2 P l xs -> Forall (fun s => exists c t, s = c :: t /\ starts_value c = true) xs.
Proof. intros H H2. induction H2; constructor; eauto. Qed.

Lemma Forall2_nil_r {A B} (P : A -> B -> Prop) l : Forall2 P l [] -> l = [].
Proof. inversion 1; reflexivity. Qed.

(** Every value [dumps] prints scans back as itself. *)
Lemma dumps_scans_back v : scans_back v.
Proof.
  induction v as [| b | z | q | str | l IH | kvs IH] using json_ind';
    intros s Hs rest Hr f Hf; cbn [dumps_l] in Hs; destruct f as [|f]; try lia.
  - injection Hs as <-. reflexivity.
  - injection Hs as <-. destruct b; reflexivity.
  - exact (scan_value_int f z s rest Hs Hr).
  - discriminate.
  - injection Hs as <-. apply scan_value_string.
  - destruct (all_some (map dumps_l l)) as [xs|] eqn:E; cbn [option_map] in Hs; [|discriminate].
    injection Hs as <-. apply all_some_Forall2 in E.
    apply (scan_value_collection f "[" "]" xs rest (fun r g => smap JArr (scan_items g r)) (JArr []));
      auto.
    + intros ->. apply Forall2_nil_r in E. subst. reflexivity.
    + exact (Forall2_heads _ l xs dumps_l_head E).
    + intros Hne Hlen. cbn [smap]. rewrite (scan_items_dumps l xs IH E Hne rest f Hlen). reflexivity.
  - destruct (distinct_keys kvs); [|discriminate].
    destruct (all_some _) as [xs|] eqn:E; cbn [option_map] in Hs; [|discriminate].
    injection Hs as <-. apply all_some_Forall2 in E.
    assert (E' : Forall2 (fun kv s => member_text kv = Some s) kvs xs).
    { eapply Forall2_impl; [|exact E]. intros [k x] sx H. exact H. }
    apply (scan_value_collection f "{" "}" xs rest (fun r g => smap JObj (scan_members g r)) (JObj []));
      auto.
    + intros ->. apply Forall2_nil_r in E. subst. reflexivity.
    + exact (Forall2_heads _ kvs xs member_text_head E').
    + intros Hne Hlen. cbn [smap].
      rewrite (scan_members_dumps kvs xs IH E' Hne rest f Hlen). reflexivity.
Qed.

(** The decoder reads back what the encoder writes: [loads] returns every value
    [json.dumps] prints, with the same lists, the same pairs in the same
    order, and every string and integer as it was. *)
Lemma loads_dumps v t : dumps v = Some t -> loads t = Some (Ret v).
Proof.
  unfold dumps, loads. destruct (dumps_l v) as [s|] eqn:E; cbn [option_map]; [|discriminate].
  intros H. injection H as <-. rewrite list_ascii_of_string_of_list_ascii.
  destruct (dumps_l_head v s E) as (c & t & Hst & Hc).
  assert (Hs := dumps_scans_back v s E [] I (S (2 * length s)) ltac:(rewrite app_nil_r; lia)).
  rewrite app_nil_r in Hs. rewrite Hst in Hs |- *.
  rewrite <- (app_nil_r (c :: t)) at 2. rewrite skip_ws_nonws by exact (starts_value_ws c Hc).
  rewrite app_nil_r, Hs. reflexivity.
Qed.

End JsonTextFacts.
