(* ===== verification/Ticker.v ===== *)
(** * The tick handler: [TradeDataProcessor.on_message]

    The attributes [on_message] reads and writes (src/main.py, lines
    10-14) as the record [Processor], and the handler (lines 101-123) as
    a computation of [Py Processor unit], statement by statement: the
    decoding of the frame's text ([on_message_text], through
    [JsonDecode.loads]), the two
    conversions [float(data["c"])] and [float(data["v"])], the volume
    delta against [prev_v] (the tick normalizer, lines 108-111), the
    price-change test against [previous_price] (line 113), the
    classification of the notional value by the threshold 100000 (lines
    114-120), and the two attribute updates (lines 122-123).

    The theorems: the handler's result on every branch ([on_message_ok],
    [tick_first], [tick_same_price], [tick_commit]); its exception safety
    (an exception leaves the processor as it was); the invariant of the
    accumulator and its preservation; that the buckets only grow; and the
    refinement of [commits], a list-level specification of what the whole
    tick stream accumulates. *)

From Stdlib Require Import String Ascii ZArith QArith Qabs Lia Lqa List.
From S2P Require Import Prelude Decimal PyJson JsonText.
Import ListNotations.
Local Open Scope py_scope.

Module TradeDataProcessor.
Import Rounding Json JsonDecode.

(** The processor's mutable attributes. *)
Record Processor : Type := mkProcessor {
  previous_price : option Q;
  prev_v : option Q;
  bigTrade : list Q;
  smallTrade : list Q;
  price : list Q
}.

(** [__init__]: both previous values [None], the three lists empty. *)
Definition init_processor : Processor := mkProcessor None None [] [] [].

(** The notional value from which a trade is "big". *)
Definition big_trade_threshold : Q := 100000.

(** Attribute updates. *)
Definition append_price (c : Q) (st : Processor) : Processor :=
  mkProcessor (previous_price st) (prev_v st) (bigTrade st) (smallTrade st) (price st ++ [c]).

Definition append_bigTrade (tv : Q) (st : Processor) : Processor :=
  mkProcessor (previous_price st) (prev_v st) (bigTrade st ++ [tv]) (smallTrade st) (price st).

Definition append_smallTrade (tv : Q) (st : Processor) : Processor :=
  mkProcessor (previous_price st) (prev_v st) (bigTrade st) (smallTrade st ++ [tv]) (price st).

Definition set_previous_price (c : Q) (st : Processor) : Processor :=
  mkProcessor (Some c) (prev_v st) (bigTrade st) (smallTrade st) (price st).

Definition set_prev_v (v : Q) (st : Processor) : Processor :=
  mkProcessor (previous_price st) (Some v) (bigTrade st) (smallTrade st) (price st).

(** Lines 108-111: the volume traded since the previous message, [0] on
    the first message. *)
Definition volume_delta (prev : option Q) (current_volume : Q) : Q :=
  match prev with
  | None => 0
  | Some pv => py_round2 (Qabs (pv - current_volume))
  end.

(** Line 113: a trade is recorded when there is a previous price and the
    price differs from it. *)
Definition price_changed (prev : option Q) (current_price : Q) : bool :=
  match prev with
  | Some pp => negb (Qeq_bool current_price pp)
  | None => false
  end.

(** Lines 117-120: the notional value goes to [bigTrade] from the
    threshold on, to [smallTrade] below it. *)
Definition record_trade (TradeValue : Q) : Py Processor unit :=
  if Qle_bool big_trade_threshold TradeValue
  then py_modify (append_bigTrade TradeValue)
  else py_modify (append_smallTrade TradeValue).

(** Lines 104-123: [on_message(ws, message)] on the decoded message
    [data]. *)
Definition on_message (data : json) : Py Processor unit :=
  current_price <- py_lift (float_item data "c") ;;
  current_volume <- py_lift (float_item data "v") ;;
  st <- py_get ;;
  let current_volume := volume_delta (prev_v st) current_volume in
  (if price_changed (previous_price st) current_price
   then py_modify (append_price current_price) ;;
        record_trade (current_price * current_volume)
   else py_ret tt) ;;
  py_modify (set_previous_price current_price) ;;
  v <- py_lift (float_item data "v") ;;
  py_modify (set_prev_v v).

(** Lines 101-102: [on_message(ws, message)] on the text of the frame,
    decoded by [json.loads] (an error of the decoder propagates like the
    handler's own); [None] for a frame whose value the model cannot hold
    (see [JsonDecode.loads]). *)
Definition on_message_text (message : string) : option (Py Processor unit) :=
  match loads message with
  | Some r => Some (data <- py_lift r ;; on_message data)
  | None => None
  end.

(** The handler's effect on a message whose two fields convert to [c]
    and [v]. *)
Definition tick (c v : Q) (st : Processor) : Processor :=
  let st1 :=
    if price_changed (previous_price st) c then
      let tv := c * volume_delta (prev_v st) v in
      let st' := append_price c st in
      if Qle_bool big_trade_threshold tv then append_bigTrade tv st'
      else append_smallTrade tv st'
    else st in
  set_prev_v v (set_previous_price c st1).

End TradeDataProcessor.

(** ** A list-level specification of the accumulator *)

Module Spec.
Import Rounding TradeDataProcessor.

(** The trades a tick stream [(price, cumulative volume)] commits, after
    the tick [prev]: each tick whose price differs from the one before,
    with its notional value [price * round(|previous volume - volume|, 2)]. *)
Fixpoint commits (prev : option (Q * Q)) (ts : list (Q * Q)) : list (Q * Q) :=
  match ts with
  | [] => []
  | (c, v) :: r =>
      match prev with
      | Some (pc, pv) =>
          if Qeq_bool c pc then [] else [(c, c * py_round2 (Qabs (pv - v)))]
      | None => []
      end ++ commits (Some (c, v)) r
  end.

Definition last_tick (prev : option (Q * Q)) (ts : list (Q * Q)) : option (Q * Q) :=
  fold_left (fun _ t => Some t) ts prev.

Definition is_big (tv : Q) : bool := Qle_bool big_trade_threshold tv.

(** What the processor holds after the stream [ts], from [init]. *)
Definition spec_state (ts : list (Q * Q)) : Processor :=
  let cs := commits None ts in
  mkProcessor (option_map fst (last_tick None ts)) (option_map snd (last_tick None ts))
    (filter is_big (map snd cs)) (filter (fun x => negb (is_big x)) (map snd cs))
    (map fst cs).

End Spec.

(** ** Properties of [on_message] *)

Module TickerFacts.
Import Rounding Json TradeDataProcessor Spec.

(** Every stream of ticks as decoded messages. *)
Definition tick_msgs (ts : list (Q * Q)) : list json := map (fun t => tick_json (fst t) (snd t)) ts.

(** The invariant of the accumulator: one recorded price per recorded
    trade, both previous values set together, and each bucket on its side
    of the threshold. *)
Definition acc_inv (st : Processor) : Prop :=
  length (price st) = (length (bigTrade st) + length (smallTrade st))%nat
  /\ (previous_price st = None <-> prev_v st = None)
  /\ Forall (fun x => big_trade_threshold <= x) (bigTrade st)
  /\ Forall (fun x => x < big_trade_threshold) (smallTrade st).

Lemma on_message_ok data c v st :
  float_item data "c" = Ret c -> float_item data "v" = Ret v ->
  on_message data st = (Ret tt, tick c v st).
Proof.
  intros Hc Hv. unfold on_message, tick, record_trade, py_lift, py_get, py_ret, py_modify, py_bind.
  rewrite Hc, Hv.
  destruct (price_changed (previous_price st) c); [|reflexivity].
  destruct (Qle_bool big_trade_threshold _); reflexivity.
Qed.

(** C4: exception safety.  When [on_message] raises, the exception is the
    one [float(data["c"])] raises, or else the one of [float(data["v"])],
    and the processor is left as it was: the conversions come before the
    first attribute update, and the second [float(data["v"])] of line 123
    cannot fail once the first succeeded. *)
Theorem on_message_raise data st e st' :
  on_message data st = (Raise e, st') ->
  st' = st /\
  (float_item data "c" = Raise e \/
   exists c, float_item data "c" = Ret c /\ float_item data "v" = Raise e).
Proof.
  destruct (float_item data "c") as [c|ec] eqn:Hc.
  - destruct (float_item data "v") as [v|ev] eqn:Hv.
    + rewrite (on_message_ok data c v st Hc Hv). discriminate.
    + unfold on_message, py_lift, py_bind. rewrite Hc, Hv.
      intros H. inversion H; subst. eauto.
  - unfold on_message, py_lift, py_bind. rewrite Hc. intros H. inversion H; subst. auto.
Qed.

(** The reply to the SUBSCRIBE request has no field ["c"]: the handler
    raises [KeyError('c')] and the processor is unchanged. *)
Lemma on_message_raise_witness :
  init_processor = init_processor
  /\ (float_item subscribe_reply "c" = Raise (KeyError "c")
      \/ exists c, float_item subscribe_reply "c" = Ret c
                   /\ float_item subscribe_reply "v" = Raise (KeyError "c")).
Proof. apply (on_message_raise subscribe_reply init_processor (KeyError "c")). reflexivity. Defined.


(** C18: the first message (no previous price) records no trade; it only
    sets [previous_price] and [prev_v]. *)
Theorem tick_first c v st :
  previous_price st = None ->
  tick c v st = mkProcessor (Some c) (Some v) (bigTrade st) (smallTrade st) (price st).
Proof. intros H. unfold tick. rewrite H. reflexivity. Qed.

Lemma tick_first_witness :
  tick 100 10 init_processor = mkProcessor (Some 100) (Some 10) [] [] [].
Proof. apply tick_first. reflexivity. Defined.


(** C19: a message repeating the previous price records no trade, but
    both previous values are updated. *)
Theorem tick_same_price c v pp st :
  previous_price st = Some pp -> c == pp ->
  tick c v st = mkProcessor (Some c) (Some v) (bigTrade st) (smallTrade st) (price st).
Proof.
  intros H E. unfold tick, price_changed. rewrite H.
  apply Qeq_bool_iff in E. rewrite E. reflexivity.
Qed.

Lemma tick_same_price_witness :
  tick 105 20 (mkProcessor (Some 105) (Some 15) [] [525] [105])
  = mkProcessor (Some 105) (Some 20) [] [525] [105].
Proof. apply (tick_same_price 105 20 105); reflexivity. Defined.


(** C3: a message whose price moved records the price and the notional
    value [c * round(|prev_v - v|, 2)], in [bigTrade] when it is at least
    100000 and in [smallTrade] otherwise. *)
Theorem tick_commit c v pp pv st :
  previous_price st = Some pp -> prev_v st = Some pv -> ~ c == pp ->
  let tv := c * py_round2 (Qabs (pv - v)) in
  tick c v st =
  if Qle_bool 100000 tv
  then mkProcessor (Some c) (Some v) (bigTrade st ++ [tv]) (smallTrade st) (price st ++ [c])
  else mkProcessor (Some c) (Some v) (bigTrade st) (smallTrade st ++ [tv]) (price st ++ [c]).
Proof.
  intros Hp Hv E tv. unfold tick, price_changed, volume_delta. rewrite Hp, Hv.
  destruct (Qeq_bool c pp) eqn:Eb; [apply Qeq_bool_iff in Eb; contradiction|].
  fold tv. unfold big_trade_threshold. destruct (Qle_bool 100000 tv); reflexivity.
Qed.

Lemma tick_commit_witness :
  tick 105 15 (mkProcessor (Some 100) (Some 10) [] [] [])
  = if Qle_bool 100000 (105 * py_round2 (Qabs (10 - 15)))
    then mkProcessor (Some 105) (Some 15) [105 * py_round2 (Qabs (10 - 15))] [] [105]
    else mkProcessor (Some 105) (Some 15) [] [105 * py_round2 (Qabs (10 - 15))] [105].
Proof.
  apply (tick_commit 105 15 100 10 (mkProcessor (Some 100) (Some 10) [] [] []));
    [reflexivity|reflexivity|intros H; inversion H].
Defined.


Lemma tick_inv c v st : acc_inv st -> acc_inv (tick c v st).
Proof.
  intros (Hlen & Hprev & Hbig & Hsmall). unfold tick, acc_inv.
  destruct (price_changed (previous_price st) c); simpl.
  - destruct (Qle_bool big_trade_threshold _) eqn:Hq; simpl; rewrite !length_app; simpl.
    + apply Qle_bool_iff in Hq. repeat split; try lia; try discriminate.
      * apply Forall_app; split; auto.
      * exact Hsmall.
    + assert (~ big_trade_threshold <= c * volume_delta (prev_v st) v)
        by (rewrite <- Qle_bool_iff; congruence).
      repeat split; try lia; try discriminate; [exact Hbig|].
      apply Forall_app; split; auto. constructor; [apply Qnot_le_lt; auto|constructor].
  - repeat split; try lia; try discriminate; assumption.
Qed.

(** Either both conversions succeed and the handler is [tick], or it
    raises with the processor unchanged. *)
Lemma on_message_cases data st :
  (exists c v, on_message data st = (Ret tt, tick c v st))
  \/ (exists e, on_message data st = (Raise e, st)).
Proof.
  destruct (float_item data "c") as [c|ec] eqn:Hc;
    [destruct (float_item data "v") as [v|ev] eqn:Hv|].
  - left. exists c, v. now apply on_message_ok.
  - right. exists ev. unfold on_message, py_lift, py_bind. now rewrite Hc, Hv.
  - right. exists ec. unfold on_message, py_lift, py_bind. now rewrite Hc.
Qed.

Lemma on_message_state data st :
  (exists c v, py_state (on_message data) st = tick c v st) \/ py_state (on_message data) st = st.
Proof.
  unfold py_state. destruct (on_message_cases data st) as [[c [v ->]]|[e ->]]; [left; exists c, v; reflexivity|right; reflexivity].
Qed.

(** C5: every message, converted or not, keeps the accumulator invariant. *)
Theorem on_message_preserves_inv data st :
  acc_inv st -> acc_inv (py_state (on_message data) st).
Proof.
  intros Hinv. destruct (on_message_state data st) as [[c [v ->]]| ->]; auto using tick_inv.
Qed.

Lemma on_message_preserves_inv_witness :
  acc_inv (py_state (on_message (tick_json 100 10)) init_processor).
Proof.
  apply on_message_preserves_inv.
  unfold acc_inv. cbn. split; [reflexivity|split; [tauto|split; constructor]].
Defined.


Lemma tick_prefix c v st :
  prefix (bigTrade st) (bigTrade (tick c v st)) /\ prefix (smallTrade st) (smallTrade (tick c v st))
  /\ prefix (price st) (price (tick c v st)).
Proof.
  unfold tick. destruct (price_changed _ _); simpl; [destruct (Qle_bool _ _); simpl|];
    repeat split; auto with bot; reflexivity.
Qed.

(** C20: the three collections are append-only: each message leaves the
    previous contents of [bigTrade], [smallTrade] and [price] as a prefix. *)
Theorem on_message_append_only data st :
  let st' := py_state (on_message data) st in
  prefix (bigTrade st) (bigTrade st') /\ prefix (smallTrade st) (smallTrade st')
  /\ prefix (price st) (price st').
Proof.
  intros st'. subst st'.
  destruct (on_message_state data st) as [[c [v ->]]| ->]; [apply tick_prefix|].
  repeat split; reflexivity.
Qed.

(** The processor's previous values are those of the tick [p]. *)
Definition synced (p : option (Q * Q)) (st : Processor) : Prop :=
  previous_price st = option_map fst p /\ prev_v st = option_map snd p.

Lemma foreach_tick ts : forall p st, synced p st ->
  py_foreach on_message (tick_msgs ts) st =
  mkProcessor (option_map fst (last_tick p ts)) (option_map snd (last_tick p ts))
    (bigTrade st ++ filter is_big (map snd (commits p ts)))
    (smallTrade st ++ filter (fun x => negb (is_big x)) (map snd (commits p ts)))
    (price st ++ map fst (commits p ts)).
Proof.
  induction ts as [|[c v] ts IH]; intros p st [Hp Hv].
  - destruct st; simpl in *; subst. rewrite !app_nil_r. reflexivity.
  - change (py_foreach on_message (tick_msgs ((c, v) :: ts)) st)
      with (py_foreach on_message (tick_msgs ts) (py_state (on_message (tick_json c v)) st)).
    unfold py_state.
    rewrite (on_message_ok (tick_json c v) c v st eq_refl eq_refl). cbn [snd].
    rewrite (IH (Some (c, v)) (tick c v st)) by (split; reflexivity).
    change (last_tick p ((c, v) :: ts)) with (last_tick (Some (c, v)) ts).
    cbn [commits].
    destruct p as [[pc pv]|]; simpl in Hp, Hv.
    2:{ unfold tick, price_changed. rewrite Hp. reflexivity. }
    unfold tick, price_changed, volume_delta. rewrite Hp, Hv.
    destruct (Qeq_bool c pc); [reflexivity|]. cbn [negb].
    unfold is_big. cbn [map filter snd fst app].
    destruct (Qle_bool big_trade_threshold (c * py_round2 (Qabs (pv - v))));
      cbn [bigTrade smallTrade price set_prev_v set_previous_price append_bigTrade
           append_smallTrade append_price map filter snd fst app negb];
      rewrite <- ?app_assoc; reflexivity.
Qed.

(** C1: refinement.  Running [on_message] over the messages of a tick
    stream from [__init__]'s state gives the state the list-level
    specification [spec_state] describes: the committed trades of the
    stream, their prices in [price], their notional values split by the
    threshold into [bigTrade] and [smallTrade], in stream order. *)
Theorem on_message_refines_spec ts :
  py_foreach on_message (tick_msgs ts) init_processor = spec_state ts.
Proof. rewrite (foreach_tick ts None); [reflexivity|split; reflexivity]. Qed.

(** C2: no trade is dropped or counted twice: the two buckets sum to the
    notional values of all committed trades, and there is one recorded
    price per committed trade. *)
Theorem buckets_partition_notional ts :
  let st := py_foreach on_message (tick_msgs ts) init_processor in
  py_sum (bigTrade st) + py_sum (smallTrade st) == py_sum (map snd (commits None ts))
  /\ length (price st) = length (commits None ts).
Proof.
  intros st. subst st. rewrite (foreach_tick ts None) by (split; reflexivity). cbn.
  split; [apply py_sum_filter_partition|apply length_map].
Qed.

End TickerFacts.
