(* ===== verification/Csv.v ===== *)
(** * The CSV log's dialect: [csv.writer] and a reader for it

    [write_to_csv] and [start_processing] (src/main.py, lines 50-60 and
    140-150) write rows with [csv.writer] in its default dialect
    ([excel]: comma delimiter, double-quote quoting character, doubled
    quotes inside a quoted field, [QUOTE_MINIMAL], lines ended by
    ["\r\n"]).  This file models [writerow] as [csv_line] and gives a
    strict reader for the dialect, [read_csv_line]; the lemma
    [read_csv_line_csv_line] is the round trip (every non-empty row
    written reads back as itself), which [Scheduler.v] uses to read the
    CSV file of a run back. *)

From Stdlib Require Import String Ascii List.
From S2P Require Import Prelude.
Import ListNotations.
Local Open Scope string_scope.

Module CsvWriter.

Definition dquote : ascii := "034"%char.
Definition comma : ascii := ","%char.
Definition cr : ascii := "013"%char.
Definition lf : ascii := "010"%char.
Definition crlf : string := String cr (String lf EmptyString).

(** The characters that force quoting: the delimiter, the quote
    character, and the characters of the line terminator. *)
Definition special (a : ascii) : bool :=
  orb (orb (Ascii.eqb a comma) (Ascii.eqb a dquote)) (orb (Ascii.eqb a cr) (Ascii.eqb a lf)).

Definition needs_quote (s : string) : bool := existsb special (list_ascii_of_string s).

(** A quoted field doubles its quote characters. *)
Definition escape (a : ascii) : list ascii := if Ascii.eqb a dquote then [a; a] else [a].

Definition csv_field (s : string) : string :=
  if needs_quote s then
    string_of_list_ascii ([dquote] ++ flat_map escape (list_ascii_of_string s) ++ [dquote])%list
  else s.

(** [writer.writerow(fields)]: the fields joined by commas and ended by
    ["\r\n"]; a row of one empty field is written as a quoted empty
    field, so that it does not read back as an empty row. *)
Definition csv_line (fields : list string) : string :=
  match fields with
  | [""] => String dquote (String dquote EmptyString) ++ crlf
  | _ => String.concat "," (map csv_field fields) ++ crlf
  end.

(** ** A strict reader of the dialect *)

Inductive mode : Type := Field_start | Unquoted | Quoted | Quote_seen.

(** The fields of a line without its terminator; [None] on text the
    writer cannot produce (an unterminated quote, a character after a
    closing quote). *)
Fixpoint scan (m : mode) (cs : list ascii) (cur : list ascii) (acc : list (list ascii))
    : option (list (list ascii)) :=
  match cs with
  | [] => match m with Quoted => None | _ => Some (acc ++ [cur])%list end
  | c :: t =>
      match m with
      | Field_start =>
          if Ascii.eqb c dquote then scan Quoted t [] acc
          else if Ascii.eqb c comma then scan Field_start t [] (acc ++ [[]])%list
          else scan Unquoted t [c] acc
      | Unquoted =>
          if Ascii.eqb c comma then scan Field_start t [] (acc ++ [cur])%list
          else scan Unquoted t (cur ++ [c])%list acc
      | Quoted =>
          if Ascii.eqb c dquote then scan Quote_seen t cur acc
          else scan Quoted t (cur ++ [c])%list acc
      | Quote_seen =>
          if Ascii.eqb c dquote then scan Quoted t (cur ++ [dquote])%list acc
          else if Ascii.eqb c comma then scan Field_start t [] (acc ++ [cur])%list
          else None
      end
  end.

(** The line without its final ["\r\n"]. *)
Definition strip_crlf (cs : list ascii) : option (list ascii) :=
  match rev cs with
  | a :: b :: r => if andb (Ascii.eqb a lf) (Ascii.eqb b cr) then Some (rev r) else None
  | _ => None
  end.

Definition read_csv_line (line : string) : option (list string) :=
  match strip_crlf (list_ascii_of_string line) with
  | Some body => option_map (map string_of_list_ascii) (scan Field_start body [] [])
  | None => None
  end.

End CsvWriter.

Module CsvFacts.
Import CsvWriter.
Local Open Scope list_scope.

Lemma special_false a :
  special a = false -> Ascii.eqb a comma = false /\ Ascii.eqb a dquote = false.
Proof.
  unfold special. intros H. apply Bool.orb_false_iff in H as [H _].
  apply Bool.orb_false_iff in H. exact H.
Qed.

(** An unquoted run of ordinary characters is copied into the field. *)
Lemma scan_unquoted cs rest cur acc :
  Forall (fun a => special a = false) cs ->
  scan Unquoted (cs ++ rest) cur acc = scan Unquoted rest (cur ++ cs) acc.
Proof.
  intros H. revert cur. induction H as [|c cs Hc _ IH]; intros cur.
  - now rewrite app_nil_r.
  - cbn [app scan]. destruct (special_false c Hc) as [-> _].
    rewrite IH, <- app_assoc. reflexivity.
Qed.

(** A quoted run with its quotes doubled is read back up to the closing
    quote. *)
Lemma scan_quoted cs rest cur acc :
  scan Quoted (flat_map escape cs ++ dquote :: rest) cur acc
  = scan Quote_seen rest (cur ++ cs) acc.
Proof.
  revert cur. induction cs as [|c cs IH]; intros cur.
  - now rewrite app_nil_r.
  - cbn [flat_map]. unfold escape at 1.
    destruct (Ascii.eqb c dquote) eqn:Hc.
    + apply Ascii.eqb_eq in Hc. subst c. cbn. rewrite IH, <- app_assoc. reflexivity.
    + cbn. rewrite Hc, IH, <- app_assoc. reflexivity.
Qed.

(** What the reader does after a field: stop at the end of the line, or
    start the next field after a comma. *)
Definition after_field (r : list ascii) (acc : list (list ascii)) : option (list (list ascii)) :=
  match r with
  | [] => Some acc
  | _ :: r' => scan Field_start r' [] acc
  end.

(** One written field, followed by the end of the line or a comma, reads
    back as itself. *)
Lemma scan_field f r acc :
  (r = [] \/ exists r', r = comma :: r') ->
  scan Field_start (list_ascii_of_string (csv_field f) ++ r) [] acc
  = after_field r (acc ++ [list_ascii_of_string f]).
Proof.
  intros Hr. unfold csv_field.
  destruct (needs_quote f) eqn:Hq.
  - rewrite list_ascii_of_string_of_list_ascii. cbn [app scan].
    change (Ascii.eqb dquote dquote) with true. cbn iota.
    rewrite <- app_assoc. cbn [app]. rewrite scan_quoted.
    destruct Hr as [->|[r' ->]]; reflexivity.
  - unfold needs_quote in Hq.
    assert (Hf : Forall (fun a => special a = false) (list_ascii_of_string f)).
    { apply Forall_forall. intros a Ha. destruct (special a) eqn:E; [|reflexivity].
      exfalso. assert (existsb special (list_ascii_of_string f) = true)
        by (apply existsb_exists; eauto). congruence. }
    destruct (list_ascii_of_string f) as [|c cs] eqn:Ef.
    + destruct Hr as [->|[r' ->]]; reflexivity.
    + inversion Hf as [|? ? Hc Hcs]; subst.
      destruct (special_false c Hc) as [Hcomma Hdq].
      cbn [app scan]. rewrite Hdq, Hcomma, scan_unquoted by exact Hcs.
      destruct Hr as [->|[r' ->]]; reflexivity.
Qed.

Lemma concat_csv_fields f fs :
  list_ascii_of_string (String.concat "," (map csv_field (f :: fs)))
  = list_ascii_of_string (csv_field f)
    ++ match fs with
       | [] => []
       | _ => comma :: list_ascii_of_string (String.concat "," (map csv_field fs))
       end.
Proof.
  destruct fs as [|g gs]; cbn [map String.concat].
  - now rewrite app_nil_r.
  - rewrite list_ascii_of_string_app. reflexivity.
Qed.

Lemma scan_fields fs : forall acc,
  fs <> [] ->
  scan Field_start (list_ascii_of_string (String.concat "," (map csv_field fs))) [] acc
  = Some (acc ++ map list_ascii_of_string fs).
Proof.
  induction fs as [|f fs IH]; intros acc Hne; [congruence|].
  rewrite concat_csv_fields. destruct fs as [|g gs].
  - rewrite scan_field by auto. reflexivity.
  - rewrite scan_field by eauto. cbn [after_field].
    rewrite IH by discriminate. rewrite <- app_assoc. reflexivity.
Qed.

Lemma strip_crlf_app body : strip_crlf (body ++ [cr; lf]) = Some body.
Proof.
  unfold strip_crlf. rewrite rev_app_distr. cbn. rewrite rev_involutive. reflexivity.
Qed.

(** The reader inverts the writer on every non-empty row. *)
Lemma read_csv_line_csv_line fields :
  fields <> [] -> read_csv_line (csv_line fields) = Some fields.
Proof.
  intros Hne.
  assert (Hgen : fields <> [""] ->
    read_csv_line (String.concat "," (map csv_field fields) ++ crlf)%string = Some fields).
  { intros _. unfold read_csv_line.
    rewrite list_ascii_of_string_app. change (list_ascii_of_string crlf) with [cr; lf].
    rewrite strip_crlf_app, scan_fields by exact Hne. cbn [option_map app].
    rewrite map_map. f_equal. rewrite <- (map_id fields) at 2.
    apply map_ext. apply string_of_list_ascii_of_string. }
  destruct fields as [|f [|g gs]]; [congruence| |].
  - destruct f as [|a s]; [reflexivity|]. unfold csv_line. apply Hgen. congruence.
  - unfold csv_line. destruct f; apply Hgen; congruence.
Qed.

End CsvFacts.
