(* ===== verification/Report.v ===== *)
(** * The reporter: [calculate_and_display], [format_trade_value], [write_to_csv]

    [calculate_and_display(interval)] (src/main.py, lines 62-99) reads the
    three collections of the processor, sums the buckets, averages the
    prices, computes the percentage change of the last price against the
    average, takes the wall-clock time, prints one fixed-width console
    line and appends one row to [trade_data.csv] through [write_to_csv]
    (lines 40-60).  The world it acts on is the record [World]: the
    processor, the console, the CSV file as its list of lines, and
    whether the file can be opened for appending.

    The theorems: that the average lies between the smallest and the
    largest price; and that a report reads the processor without
    changing it and writes exactly one console line and one CSV line,
    or, when the file cannot be opened, the console line only. *)

From Stdlib Require Import String Ascii ZArith QArith Qabs Lia Lqa List.
From S2P Require Import Prelude Decimal PyJson Ticker Csv.
Import ListNotations.
Local Open Scope py_scope.
Local Open Scope string_scope.

Module Reporter.
Import Rounding Digits Format TradeDataProcessor CsvWriter.

(** Lines 34-38. *)
Definition format_trade_value (value : Q) : string :=
  if Qle_bool 1000000 value
  then format_2f (value / 1000000) ++ " M"
  else format_2f value.

(** Line 67: [sum(self.price) / len(self.price) if len(self.price) > 0 else 0]. *)
Definition average_price (prices : list Q) : Q :=
  if Nat.ltb 0 (length prices)
  then py_sum prices / inject_Z (Z.of_nat (length prices))
  else 0.

(** Line 69: [self.price[-1] if self.price else 0]. *)
Definition current_price (prices : list Q) : Q :=
  match prices with
  | [] => 0
  | _ => last prices 0
  end.

(** Lines 72-77, with [period_closing_price = average_price]. *)
Definition percentage (period_closing_price current : Q) : Q :=
  if negb (Qeq_bool period_closing_price 0)
  then (current - period_closing_price) / period_closing_price * 100
  else 0.

(** The wall-clock time [datetime.now()] returns, as its fields. *)
Record datetime : Type := mkDatetime {
  dt_month : Z; dt_day : Z; dt_year : Z; dt_hour : Z; dt_minute : Z; dt_second : Z
}.

(** Two digits with a leading zero, as [%m %d %H %M %S] print them. *)
Definition pad2 (n : Z) : string :=
  if Z.ltb n 10 then "0" ++ show_Z n else show_Z n.

(** Line 79: [strftime("%m-%d-%Y %H:%M:%S")]. *)
Definition strftime (t : datetime) : string :=
  pad2 (dt_month t) ++ "-" ++ pad2 (dt_day t) ++ "-" ++ show_Z (dt_year t) ++ " "
  ++ pad2 (dt_hour t) ++ ":" ++ pad2 (dt_minute t) ++ ":" ++ pad2 (dt_second t).

(** ["{:<25}"]: the string left-aligned in 25 columns. *)
Definition ljust25 (s : string) : string :=
  s ++ string_of_list_ascii (repeat " "%char (25 - String.length s)).

(** Lines 82-89: the six columns, separated by one space. *)
Definition console_line (fields : list string) : string :=
  String.concat " " (map ljust25 fields).

(** The six fields of a report, in the order of lines 53-58 and 83-88. *)
Definition report_fields (st : Processor) (interval : string) (now : datetime) : list string :=
  let total_big_trades := py_sum (bigTrade st) in
  let total_small_trades := py_sum (smallTrade st) in
  let avg := average_price (price st) in
  let cur := current_price (price st) in
  [strftime now; interval; format_trade_value total_big_trades;
   format_trade_value total_small_trades; format_2f avg;
   format_2f (percentage avg cur) ++ "%"].

(** ** The world a report acts on *)

(** Line 15: [self.csv_file_name]; [open] names it in the [OSError] it
    raises. *)
Definition csv_file_name : string := "trade_data.csv".

Record World : Type := mkWorld {
  proc : Processor;
  console : list string;
  csv_file : list string;
  csv_writable : bool
}.

Definition print_line (s : string) (w : World) : World :=
  mkWorld (proc w) (console w ++ [s]) (csv_file w) (csv_writable w).

Definition append_csv (line : string) (w : World) : World :=
  mkWorld (proc w) (console w) (csv_file w ++ [line]) (csv_writable w).

(** Lines 40-60: [open(..., mode="a")] raises when the file cannot be
    opened; otherwise one line is appended. *)
Definition write_to_csv (start_time interval formatted_big_trades formatted_small_trades : string)
    (average_price percentage : Q) : Py World unit :=
  w <- py_get ;;
  if csv_writable w
  then py_modify (append_csv (csv_line [start_time; interval; formatted_big_trades;
                   formatted_small_trades; format_2f average_price;
                   format_2f percentage ++ "%"]))
  else py_raise (OSError csv_file_name).

(** Lines 62-99. *)
Definition calculate_and_display (interval : string) (now : datetime) : Py World unit :=
  w <- py_get ;;
  let st := proc w in
  let total_big_trades := py_sum (bigTrade st) in
  let total_small_trades := py_sum (smallTrade st) in
  let formatted_big_trades := format_trade_value total_big_trades in
  let formatted_small_trades := format_trade_value total_small_trades in
  let average_price := average_price (price st) in
  let current_price := current_price (price st) in
  let percentage := percentage average_price current_price in
  let start_time := strftime now in
  py_modify (print_line (console_line [start_time; interval; formatted_big_trades;
               formatted_small_trades; format_2f average_price; format_2f percentage ++ "%"])) ;;
  write_to_csv start_time interval formatted_big_trades formatted_small_trades
    average_price percentage.

End Reporter.

(** ** Properties of the reporter *)

Module ReportFacts.
Import Rounding Format TradeDataProcessor Reporter CsvWriter.

(** C17: the average price lies between the smallest and the largest
    recorded price. *)
Theorem average_price_bounds (prices : list Q) lo hi :
  prices <> [] -> Forall (fun p => lo <= p /\ p <= hi) prices ->
  lo <= average_price prices /\ average_price prices <= hi.
Proof.
  intros Hne Hb. unfold average_price.
  destruct prices as [|p ps]; [congruence|]. cbn [length Nat.ltb Nat.leb].
  set (n := inject_Z (Z.of_nat (length (p :: ps)))).
  assert (Hn : 0 < n).
  { unfold n. change 0 with (inject_Z 0). rewrite <- Zlt_Qlt. cbn [length]. lia. }
  destruct (py_sum_bounds lo hi _ Hb) as [Hl Hh]. fold n in Hl, Hh.
  split; [apply Qle_shift_div_l|apply Qle_shift_div_r]; auto;
    rewrite Qmult_comm; assumption.
Qed.

Lemma average_price_bounds_witness :
  105 <= average_price [105; 110] /\ average_price [105; 110] <= 110.
Proof.
  apply (average_price_bounds [105; 110] 105 110); [discriminate|].
  repeat constructor; lra.
Defined.

(** C16: a report reads the processor and leaves it unchanged; it prints
    one console line and appends one CSV line with the same six fields;
    when the file cannot be opened it raises [OSError] after the console
    line was printed, and the file is unchanged. *)
Theorem calculate_and_display_effect interval now w :
  let fields := report_fields (proc w) interval now in
  calculate_and_display interval now w =
  if csv_writable w
  then (Ret tt, mkWorld (proc w) (console w ++ [console_line fields])
                  (csv_file w ++ [csv_line fields]) true)
  else (Raise (OSError "trade_data.csv"),
        mkWorld (proc w) (console w ++ [console_line fields]) (csv_file w) false).
Proof.
  intros fields. destruct w as [st con file [|]]; reflexivity.
Qed.

End ReportFacts.
