(* ===== verification/Interleave.v ===== *)
(** * A timer thread interleaved with the tick handler

    [threading.Timer] runs [calculate_and_display] on its own thread
    (src/main.py, lines 167-171) while the websocket thread runs
    [on_message]; nothing orders the two.  The interpreter switches
    threads between bytecodes, so the handler's attribute updates (lines
    114, 118 or 120, 122, 123) and the reporter's reads of the
    collections (lines 63, 64, 67, 69) interleave.  This file models the
    handler as its list of updates ([tick_actions]), the reporter as its
    list of reads ([report_reads]), and an interleaving as a schedule: a
    list of booleans, [true] for a step of the handler and [false] for a
    step of the reporter.  The reads are those CPython makes: line 67
    tests [len(self.price) > 0], then sums [self.price], then takes its
    length again, and line 69 tests [self.price] before it reads the last
    element, each a separate read of the shared list.

    [may_observe] is the specification of a report: each read atomic, on
    the state the handler's updates so far left; every schedule's report
    satisfies it, which is how the bound below is proved for all
    schedules at once.

    The theorems: from every state holding positive prices, for every
    message that records a trade at a new positive price, a schedule
    exists under which line 67 sums the prices before the append and
    counts them after it, so the report prints an average below both the
    average before the message and the average after it; and under every
    schedule the reported average lies between 0 and any bound of the
    recorded prices, when they are non-negative: a torn average only
    errs downwards. *)

From Stdlib Require Import String ZArith QArith Lqa Lia List.
From S2P Require Import Prelude Decimal PyJson Ticker Report.
Import ListNotations.

Module Threads.
Import Rounding Format TradeDataProcessor Reporter.

(** One attribute update of [on_message]. *)
Inductive action : Type :=
| W_price (c : Q)
| W_big (tv : Q)
| W_small (tv : Q)
| W_prev (c : Q)
| W_prev_v (v : Q).

Definition apply_action (a : action) (st : Processor) : Processor :=
  match a with
  | W_price c => append_price c st
  | W_big tv => append_bigTrade tv st
  | W_small tv => append_smallTrade tv st
  | W_prev c => set_previous_price c st
  | W_prev_v v => set_prev_v v st
  end.

(** Lines 108-123: the updates [on_message] makes on a message whose
    fields convert to [c] and [v], from the values it read in [st]. *)
Definition tick_actions (c v : Q) (st : Processor) : list action :=
  (if price_changed (previous_price st) c then
     let tv := c * volume_delta (prev_v st) v in
     [W_price c; if Qle_bool big_trade_threshold tv then W_big tv else W_small tv]
   else []) ++ [W_prev c; W_prev_v v].

(** One read of the reporter, in the order CPython evaluates lines 63-69:
    the conditional expression of line 67 tests [len(self.price) > 0]
    first and only then evaluates [sum(self.price)] and [len(self.price)];
    line 69 tests [self.price] and only then reads [self.price[-1]]. *)
Inductive read : Type :=
| Rd_big
| Rd_small
| Rd_avg_test
| Rd_avg_sum
| Rd_avg_len
| Rd_cur_test
| Rd_cur.

(** What the reporter has read so far: the two sums, the outcome of the
    test of line 67 and the sum and the length it then read, the outcome
    of the test of line 69 and the last price. *)
Record observed : Type := mkObserved {
  o_big : Q; o_small : Q;
  o_avg_test : bool; o_psum : Q; o_plen : nat;
  o_cur_test : bool; o_last : Q
}.

Definition obs0 : observed := mkObserved 0 0 false 0 0 false 0.

(** [if self.price] on a list: it is non-empty. *)
Definition nonempty (l : list Q) : bool := match l with [] => false | _ => true end.

(** Lines 63, 64, 67 and 69; a read the conditional expression skips
    leaves the observation as it is. *)
Definition do_read (r : read) (st : Processor) (o : observed) : observed :=
  match r with
  | Rd_big => mkObserved (py_sum (bigTrade st)) (o_small o) (o_avg_test o) (o_psum o)
                (o_plen o) (o_cur_test o) (o_last o)
  | Rd_small => mkObserved (o_big o) (py_sum (smallTrade st)) (o_avg_test o) (o_psum o)
                  (o_plen o) (o_cur_test o) (o_last o)
  | Rd_avg_test => mkObserved (o_big o) (o_small o) (Nat.ltb 0 (length (price st))) (o_psum o)
                     (o_plen o) (o_cur_test o) (o_last o)
  | Rd_avg_sum => if o_avg_test o
                  then mkObserved (o_big o) (o_small o) (o_avg_test o) (py_sum (price st))
                         (o_plen o) (o_cur_test o) (o_last o)
                  else o
  | Rd_avg_len => if o_avg_test o
                  then mkObserved (o_big o) (o_small o) (o_avg_test o) (o_psum o)
                         (length (price st)) (o_cur_test o) (o_last o)
                  else o
  | Rd_cur_test => mkObserved (o_big o) (o_small o) (o_avg_test o) (o_psum o) (o_plen o)
                     (nonempty (price st)) (o_last o)
  | Rd_cur => if o_cur_test o
              then mkObserved (o_big o) (o_small o) (o_avg_test o) (o_psum o) (o_plen o)
                     (o_cur_test o) (last (price st) 0)
              else o
  end.

(** The values the report computes from what it read: [average_price]
    (line 67) and [current_price] (line 69). *)
Definition avg_of (o : observed) : Q :=
  if o_avg_test o then o_psum o / inject_Z (Z.of_nat (o_plen o)) else 0.

Definition report_reads : list read :=
  [Rd_big; Rd_small; Rd_avg_test; Rd_avg_sum; Rd_avg_len; Rd_cur_test; Rd_cur].

Definition run_writes (ws : list action) (st : Processor) : Processor :=
  fold_left (fun s a => apply_action a s) ws st.

Definition run_reads (st : Processor) (rs : list read) (o : observed) : observed :=
  fold_left (fun o r => do_read r st o) rs o.

(** The two threads under a schedule; a thread with nothing left yields
    to the other, and when the schedule ends the reporter finishes, then
    the handler. *)
Fixpoint interleave (sched : list bool) (st : Processor) (ws : list action)
    (rs : list read) (o : observed) : Processor * observed :=
  match sched, ws, rs with
  | [], _, _ => (run_writes ws st, run_reads st rs o)
  | true :: sch, a :: ws', _ => interleave sch (apply_action a st) ws' rs o
  | false :: sch, _, r :: rs' => interleave sch st ws rs' (do_read r st o)
  | _ :: sch, [], r :: rs' => interleave sch st [] rs' (do_read r st o)
  | _ :: sch, a :: ws', [] => interleave sch (apply_action a st) ws' [] o
  | _ :: _, [], [] => (st, o)
  end.

(** The specification of a report that runs beside the handler: each
    read is atomic and sees the processor as the handler's updates so
    far, in program order, left it; the updates still pending when the
    reads are over do not concern the report. *)
Inductive may_observe : Processor -> list action -> list read -> observed -> observed -> Prop :=
| mo_end st ws o : may_observe st ws [] o o
| mo_read st ws r rs o o' :
    may_observe st ws rs (do_read r st o) o' -> may_observe st ws (r :: rs) o o'
| mo_write st a ws rs o o' :
    may_observe (apply_action a st) ws rs o o' -> may_observe st (a :: ws) rs o o'.

End Threads.

Module InterleaveFacts.
Import Json TradeDataProcessor Reporter Threads TickerFacts.

Lemma run_writes_tick_actions c v st : run_writes (tick_actions c v st) st = tick c v st.
Proof.
  unfold tick_actions, tick, run_writes.
  destruct (price_changed (previous_price st) c); [destruct (Qle_bool _ _)|]; reflexivity.
Qed.

Lemma run_reads_observe st ws rs : forall o, may_observe st ws rs o (run_reads st rs o).
Proof. induction rs as [|r rs IH]; intros o; constructor; apply IH. Qed.

#[local] Hint Constructors may_observe : core.
#[local] Hint Resolve run_reads_observe : core.

(** Every schedule's report is one [may_observe] allows. *)
Lemma interleave_observe sched : forall st ws rs o,
  may_observe st ws rs o (snd (interleave sched st ws rs o)).
Proof.
  induction sched as [|b sched IH]; intros st ws rs o; [apply run_reads_observe|].
  destruct b, ws as [|a ws], rs as [|r rs]; cbn [interleave snd]; auto.
Qed.

(** The handler's updates only ever append to [price]. *)
Lemma apply_action_price a st : prefix (price st) (price (apply_action a st)).
Proof. destruct a; cbn; auto with bot. Qed.

Lemma run_writes_price ws : forall st, prefix (price st) (price (run_writes ws st)).
Proof.
  induction ws as [|a ws IH]; intros st; [reflexivity|].
  etransitivity; [apply (apply_action_price a st)|apply IH].
Qed.

(** The first read of a report sees the state after some of the
    handler's updates; the rest of the report runs from there. *)
Lemma may_observe_cons st ws r rs o o' :
  may_observe st ws (r :: rs) o o' ->
  exists st' ws', prefix (price st) (price st') /\ run_writes ws' st' = run_writes ws st
    /\ may_observe st' ws' rs (do_read r st' o) o'.
Proof.
  remember (r :: rs) as rs0 eqn:E. induction 1 as [|st ws r' rs' o o' H _|st a ws rs' o o' _ IH];
    [discriminate| |].
  - injection E as -> ->. exists st, ws. split; [reflexivity|split; [reflexivity|exact H]].
  - destruct (IH E) as [st' [ws' [Hp [Hr Hm]]]]. exists st', ws'.
    split; [etransitivity; [apply apply_action_price|exact Hp]|split; [exact Hr|exact Hm]].
Qed.

Lemma may_observe_nil st ws o o' : may_observe st ws [] o o' -> o' = o.
Proof.
  remember [] as rs0 eqn:E. induction 1; [reflexivity|discriminate|auto].
Qed.

(** The reporter's first reads, then the handler's updates, then the rest. *)
Lemma interleave_reads_prefix rs1 : forall sched st ws rs2 o,
  interleave (repeat false (length rs1) ++ sched) st ws (rs1 ++ rs2) o
  = interleave sched st ws rs2 (run_reads st rs1 o).
Proof.
  induction rs1 as [|r rs1 IH]; intros sched st ws rs2 o; [reflexivity|].
  cbn [length repeat app interleave]. destruct ws; apply IH.
Qed.

Lemma interleave_writes_first ws : forall sched st rs o,
  interleave (repeat true (length ws) ++ sched) st ws rs o
  = interleave sched (run_writes ws st) [] rs o.
Proof.
  induction ws as [|a ws IH]; intros sched st rs o; [reflexivity|].
  cbn [length repeat app interleave]. rewrite IH. reflexivity.
Qed.

(** A message that changes the price appends it to [price]. *)
Lemma tick_price_changed c v st :
  price_changed (previous_price st) c = true -> price (tick c v st) = price st ++ [c].
Proof. unfold tick. intros ->. destruct (Qle_bool _ _); reflexivity. Qed.

Lemma inject_Z_length_succ {A} (l : list A) x :
  inject_Z (Z.of_nat (length (l ++ [x]))) == inject_Z (Z.of_nat (length l)) + 1.
Proof.
  rewrite length_app, Nat2Z.inj_add, inject_Z_plus. reflexivity.
Qed.

(** [S] over [n + 1] lies below [S] over [n] and below [S + c] over
    [n + 1], for positive [S], [n] and [c]. *)
Lemma torn_quotient_lt S N c :
  0 < S -> 0 < N -> 0 < c -> S / (N + 1) < S / N /\ S / (N + 1) < (S + c) / (N + 1).
Proof.
  intros HS HN Hc. assert (HN1 : 0 < N + 1) by lra. split.
  - apply Qlt_shift_div_l; [exact HN|].
    setoid_replace (S / (N + 1) * N) with (S * N / (N + 1)) by (field; lra).
    apply Qlt_shift_div_r; [exact HN1|]. ring_simplify. lra.
  - unfold Qdiv. apply Qmult_lt_r; [apply Qinv_lt_0_compat; exact HN1|lra].
Qed.

(** A report whose length of [price] is taken after its sum, both after a
    test that found [price] non-empty, and all on prefixes of a list of
    prices between [0] and [hi]: the quotient lies between [0] and [hi]. *)
Lemma torn_quotient_bounds (P3 P4 P5 F : list Q) hi :
  (0 < length P3)%nat -> prefix P3 P4 -> prefix P4 P5 -> prefix P5 F ->
  Forall (fun p => 0 <= p /\ p <= hi) F ->
  0 <= py_sum P4 / inject_Z (Z.of_nat (length P5)) <= hi.
Proof.
  intros Hl H34 H45 H5F HF.
  apply prefix_length in H34 as L34. apply prefix_length in H45 as L45.
  destruct H45 as [t5 ->], H5F as [tF ->], H34 as [t4 ->].
  apply Forall_app in HF as [HF _]. apply Forall_app in HF as [HF _].
  assert (Hhi : 0 <= hi).
  { destruct P3 as [|x P3]; [cbn in Hl; lia|]. apply Forall_inv in HF. lra. }
  destruct (py_sum_bounds 0 hi _ HF) as [Hlo Hup].
  set (S := py_sum (P3 ++ t4)) in *.
  set (L4 := inject_Z (Z.of_nat (length (P3 ++ t4)))) in *.
  set (L5 := inject_Z (Z.of_nat (length ((P3 ++ t4) ++ t5)))).
  assert (H45 : L4 <= L5) by (unfold L4, L5; rewrite <- Zle_Qle; lia).
  assert (H0 : 0 < L5) by (unfold L5; change 0 with (inject_Z 0); rewrite <- Zlt_Qlt; lia).
  assert (Hm : L4 * hi <= L5 * hi) by (apply Qmult_le_compat_r; assumption).
  split; [apply Qle_shift_div_l | apply Qle_shift_div_r]; lra.
Qed.

(** C13: a torn average is reachable from every state.  Whenever the
    processor holds positive prices and a message records a trade at a
    new positive price, some schedule makes the report print an average
    strictly below the average of the state before the message and
    strictly below the average of the state after it: line 67 sums
    [self.price], the handler appends the new price, and line 67 then
    takes [len(self.price)], one more than the prices it summed. *)
Theorem torn_average_below_both st c v :
  price_changed (previous_price st) c = true ->
  price st <> [] -> Forall (fun p => 0 < p) (price st) -> 0 < c ->
  exists sched,
    let o := snd (interleave sched st (tick_actions c v st) report_reads obs0) in
    avg_of o < average_price (price st) /\ avg_of o < average_price (price (tick c v st)).
Proof.
  intros Hch Hne Hpos Hc.
  exists (repeat false 4 ++ repeat true (length (tick_actions c v st)))%list.
  change report_reads with ([Rd_big; Rd_small; Rd_avg_test; Rd_avg_sum] ++ [Rd_avg_len; Rd_cur_test; Rd_cur])%list.
  rewrite (interleave_reads_prefix [Rd_big; Rd_small; Rd_avg_test; Rd_avg_sum]).
  rewrite <- (app_nil_r (repeat true _)), interleave_writes_first, run_writes_tick_actions.
  cbn zeta.
  assert (Hl : Nat.ltb 0 (length (price st)) = true).
  { apply Nat.ltb_lt. destruct (price st); [congruence|cbn; lia]. }
  assert (Hl' : Nat.ltb 0 (length (price st ++ [c])) = true).
  { apply Nat.ltb_lt. rewrite length_app. cbn. lia. }
  unfold interleave, run_reads, avg_of, average_price.
  cbn [fold_left do_read obs0 o_avg_test o_psum o_plen o_cur_test o_last o_big o_small snd].
  rewrite (tick_price_changed c v st Hch), Hl, Hl'.
  destruct (nonempty (price st ++ [c])); cbn [o_avg_test o_psum o_plen o_cur_test o_last o_big o_small];
    rewrite inject_Z_length_succ, py_sum_snoc;
    (apply torn_quotient_lt; [apply py_sum_pos; assumption| |exact Hc]);
    apply Nat.ltb_lt in Hl; change 0 with (inject_Z 0); rewrite <- Zlt_Qlt; lia.
Qed.

(** The state after the ticks [(100, 10)] and [(105, 15)]: one small
    trade of 525 at price 105. *)
Definition torn_state : Processor := py_foreach on_message (tick_msgs [(100, 10); (105, 15)]) init_processor.

Lemma torn_average_below_both_witness :
  (price_changed (previous_price torn_state) 110 = true /\ price torn_state <> []
   /\ Forall (fun p => 0 < p) (price torn_state) /\ 0 < 110)
  /\ exists sched,
    let o := snd (interleave sched torn_state (tick_actions 110 23 torn_state) report_reads obs0) in
    avg_of o < average_price (price torn_state)
    /\ avg_of o < average_price (price (tick 110 23 torn_state)).
Proof.
  assert (H1 : price_changed (previous_price torn_state) 110 = true) by reflexivity.
  assert (H2 : price torn_state <> []) by (vm_compute; discriminate).
  assert (H3 : Forall (fun p => 0 < p) (price torn_state)) by (vm_compute; repeat constructor).
  assert (H4 : 0 < 110) by reflexivity.
  split; [exact (conj H1 (conj H2 (conj H3 H4)))|].
  exact (torn_average_below_both torn_state 110 23 H1 H2 H3 H4).
Defined.

(** The reporter tests [len(self.price) > 0] and sums [self.price] (one
    price, 105), the handler runs to completion on the tick [(110, 23)]
    and appends the price 110, the reporter takes [len(self.price)] (2)
    and the last price. *)
Definition torn_avg_schedule : list bool :=
  [false; false; false; false; true; true; true; true; false; false; false].

(** C14: a torn average is always an underestimate: under every schedule
    of the report against any updates of the handler, when all the prices
    recorded by the end lie between [0] and [hi], the average the report
    prints lies between [0] and [hi]. *)
Theorem report_average_bounded sched st ws hi :
  0 <= hi -> Forall (fun p => 0 <= p /\ p <= hi) (price (run_writes ws st)) ->
  0 <= avg_of (snd (interleave sched st ws report_reads obs0)) <= hi.
Proof.
  intros Hhi HF. pose proof (interleave_observe sched st ws report_reads obs0) as H.
  set (o := snd _) in *. clearbody o. unfold report_reads in H.
  destruct (may_observe_cons _ _ _ _ _ _ H) as (s1 & w1 & _ & R1 & H1).
  destruct (may_observe_cons _ _ _ _ _ _ H1) as (s2 & w2 & _ & R2 & H2).
  destruct (may_observe_cons _ _ _ _ _ _ H2) as (s3 & w3 & _ & R3 & H3).
  destruct (may_observe_cons _ _ _ _ _ _ H3) as (s4 & w4 & P34 & R4 & H4).
  destruct (may_observe_cons _ _ _ _ _ _ H4) as (s5 & w5 & P45 & R5 & H5).
  destruct (may_observe_cons _ _ _ _ _ _ H5) as (s6 & w6 & _ & _ & H6).
  destruct (may_observe_cons _ _ _ _ _ _ H6) as (s7 & w7 & _ & _ & H7).
  apply may_observe_nil in H7. subst o.
  rewrite <- R1, <- R2, <- R3, <- R4, <- R5 in HF.
  unfold avg_of. cbn [do_read obs0 o_big o_small o_avg_test o_psum o_plen o_cur_test o_last].
  destruct (nonempty (price s6)), (Nat.ltb_spec 0 (length (price s3))) as [Hl|];
    cbn [o_avg_test o_psum o_plen]; try lra.
  all: exact (torn_quotient_bounds _ _ _ _ hi Hl P34 P45 (run_writes_price w5 s5) HF).
Qed.

Lemma report_average_bounded_witness :
  0 <= 110 /\ Forall (fun p => 0 <= p /\ p <= 110)
                (price (run_writes (tick_actions 110 23 torn_state) torn_state))
  /\ 0 <= avg_of (snd (interleave torn_avg_schedule torn_state (tick_actions 110 23 torn_state)
                     report_reads obs0)) <= 110.
Proof.
  assert (H0 : 0 <= 110) by (vm_compute; discriminate).
  assert (HF : Forall (fun p => 0 <= p /\ p <= 110)
                 (price (run_writes (tick_actions 110 23 torn_state) torn_state)))
    by (vm_compute; repeat constructor; discriminate).
  split; [exact H0|split; [exact HF|apply (report_average_bounded torn_avg_schedule _ _ 110 H0 HF)]].
Defined.

End InterleaveFacts.
