(* ===== verification/Scheduler.v ===== *)
(** * The scheduler and the running program: [start_processing]

    [start_processing] (src/main.py, lines 138-173) truncates the CSV file
    and writes its header, prints the console header, creates the
    websocket application with the callbacks [on_message], [on_error]
    and [on_close] and [on_open] (lines 125-136), starts one one-shot
    [threading.Timer] per entry of the interval table of [__init__]
    (lines 17-32), and runs the websocket loop.

    The running program is the step relation [step] over [Sys]: the
    connection opening (the text [json.dumps] makes of the SUBSCRIBE
    request is sent), a frame of text delivered to [on_message], which
    decodes it with [json.loads] (an exception either raises is passed
    to [on_error], which prints it, as the websocket library does), a
    transport error, the connection closing, one second passing, and a
    due timer firing [calculate_and_display] with its label.  The relation
    is stated against the class [ReportContract], the promise the
    reporter makes to the scheduler (a report leaves the processor as it
    is and appends one row of six fields, its label second), and
    [Reporter.calculate_and_display] is an instance.

    Reachability invariants by rule induction: the accumulator invariant;
    the pending timers and the fired labels together are the fourteen
    labels; the CSV file reads back as the header and one six-field row
    per fired timer, labelled in firing order; the collections only grow
    along any run; and from every reachable state all fourteen reports
    can still happen.  Once the connection is closed the accumulator is
    frozen, and the closed program, in which time passes only while a
    timer waits, terminates (a measure on the pending waits), and stops
    only when every timer has fired and the CSV file holds the header and
    one row per interval.  A frame whose object has no ["c"] key is
    reported by [on_error] and leaves the system as it was. *)

From Stdlib Require Import String Ascii ZArith QArith List Permutation Lia Wellfounded Wf_nat.
From S2P Require Import Prelude Decimal PyJson JsonText Ticker Csv Report.
Import ListNotations.
Local Open Scope py_scope.
Local Open Scope string_scope.

Module Schedule.
Import Json JsonEncode TradeDataProcessor CsvWriter Reporter.

(** Lines 17-32: label and delay in seconds, in insertion order. *)
Definition intervals : list (string * Z) :=
  [("15 m", 1 * 20); ("30 m", 2 * 20); ("1 h", 3 * 20); ("4 h", 4 * 20);
   ("8 h", 5 * 20); ("12 h", 6 * 20); ("24 h", 7 * 20); ("2 d", 8 * 20);
   ("3 d", 9 * 20); ("5 d", 10 * 20); ("7 d", 11 * 20); ("10 d", 12 * 20);
   ("15 d", 13 * 20); ("30 d", 14 * 20)]%Z.

Definition interval_labels : list string := map fst intervals.

(** Lines 143-148. *)
Definition header_row : list string :=
  ["Start Time"; "period"; "BigTrades"; "SmallTrades"; "Period Closing"; "%Price Change"].

(** Lines 131-136: the request [on_open] sends. *)
Definition subscribe_request : json :=
  JObj [("method", JStr "SUBSCRIBE"); ("params", JArr [JStr ("btcusdt" ++ "@ticker")]);
        ("id", JInt 1)].

(** [str(e)] as [on_error] prints it (line 126). *)
Definition exn_str (e : exn) : string :=
  match e with
  | KeyError k => "'" ++ k ++ "'"
  | TypeError m | ValueError m | OSError m => m
  end.

Inductive ws_state : Type := Connecting | Open | Closed.

(** The running program: the world of the reporter, the pending timers
    (deadline in seconds from the start, label), the clock, the labels
    of the timers that have fired (a ghost record of the run), the
    texts sent on the connection, and the connection. *)
Record Sys : Type := mkSys {
  world : World;
  timers : list (Z * string);
  clock : Z;
  fired : list string;
  sent : list string;
  conn : ws_state
}.

Definition set_world (w : World) (s : Sys) : Sys :=
  mkSys w (timers s) (clock s) (fired s) (sent s) (conn s).

(** [print(...)] on the console of the system. *)
Definition sys_print (line : string) (s : Sys) : Sys := set_world (print_line line (world s)) s.

(** Lines 139-150: [open(..., mode="w")] truncates the file to its
    header, or raises when the file cannot be opened. *)
Definition write_header : Py Sys unit :=
  s <- py_get ;;
  if csv_writable (world s)
  then py_modify (set_world (mkWorld (proc (world s)) (console (world s)) [csv_line header_row]
                                (csv_writable (world s))))
  else py_raise (OSError csv_file_name).

(** Lines 167-171: one timer per interval, due [seconds] after now. *)
Definition start_timers : Py Sys unit :=
  py_modify (fun s => mkSys (world s)
               (timers s ++ map (fun '(l, secs) => (clock s + secs, l)%Z) intervals)
               (clock s) (fired s) (sent s) (conn s)).

(** Lines 138-173, up to [ws.run_forever()], which is the relation
    [step] below. *)
Definition start_processing (now : datetime) : Py Sys unit :=
  write_header ;;
  py_modify (sys_print (String "010"%char "Start Time: " ++ strftime now ++ " "
                        ++ String "010"%char EmptyString)) ;;
  py_modify (sys_print (console_line ["End Time"; "period"; "BigTrades"; "SmallTrades";
                                      "Period Closing"; "%Price Change"] ++ " ")) ;;
  start_timers.

(** Lines 125-126 and the websocket library's dispatch: the handler's
    result on the processor is kept; an exception it raised goes to
    [on_error], which prints it. *)
Definition dispatch (r : outcome unit * Processor) (s : Sys) : Sys :=
  let w := world s in
  match r with
  | (Ret _, p') => set_world (mkWorld p' (console w) (csv_file w) (csv_writable w)) s
  | (Raise e, p') =>
      set_world (print_line (exn_str e) (mkWorld p' (console w) (csv_file w) (csv_writable w))) s
  end.

(** A decoded message given to [on_message]. *)
Definition deliver (data : json) (s : Sys) : Sys := dispatch (on_message data (proc (world s))) s.

(** A frame of text given to [on_message] (lines 101-123); [None] when
    its value is outside the model. *)
Definition deliver_text (message : string) (s : Sys) : option Sys :=
  match on_message_text message with
  | Some h => Some (dispatch (h (proc (world s))) s)
  | None => None
  end.

(** Line 135: the text [json.dumps] makes of the request. *)
Definition subscribe_text : string :=
  match dumps subscribe_request with Some t => t | None => EmptyString end.

(** Lines 131-136: the request sent, the connection open. *)
Definition on_open (s : Sys) : Sys :=
  mkSys (world s) (timers s) (clock s) (fired s) (sent s ++ [subscribe_text]) Open.

(** Lines 128-129. *)
Definition on_close (s : Sys) : Sys :=
  let s' := sys_print "WebSocket closed" s in
  mkSys (world s') (timers s') (clock s') (fired s') (sent s') Closed.

Definition tick_clock (s : Sys) : Sys :=
  mkSys (world s) (timers s) (clock s + 1)%Z (fired s) (sent s) (conn s).

End Schedule.

(** ** What the reporter promises the scheduler *)

Module Contract.
Import TradeDataProcessor CsvWriter Reporter.

(** A report reads the processor without changing it, does not change
    whether the file can be opened, and appends exactly one line to the
    CSV file when it can be opened, a row of six fields whose second is
    the label, and none when it cannot. *)
Class ReportContract (report : string -> datetime -> Py World unit) : Prop := {
  report_keeps_proc : forall l t w, proc (py_state (report l t) w) = proc w;
  report_keeps_writable : forall l t w,
    csv_writable (py_state (report l t) w) = csv_writable w;
  report_row : forall l t w, csv_writable w = true ->
    exists fields, length fields = 6%nat /\ nth 1 fields "" = l
    /\ csv_file (py_state (report l t) w) = (csv_file w ++ [csv_line fields])%list;
  report_no_line : forall l t w, csv_writable w = false ->
    csv_file (py_state (report l t) w) = csv_file w
}.

#[export] Instance calculate_and_display_contract : ReportContract calculate_and_display.
Proof.
  split; intros l t [p c f [|]]; unfold py_state; cbn -[csv_line]; try discriminate; auto.
  intros _. eexists. split; [|split; [|reflexivity]]; reflexivity.
Qed.

End Contract.

(** ** The running program *)

Module Run.
Import Json JsonEncode TradeDataProcessor CsvWriter CsvFacts Reporter Schedule Contract TickerFacts.

(** What a frame does to the system: the processor is the one before it
    (the frame did not decode) or the handler's result on the decoded
    message; the file, the timers, the clock, the fired labels and the
    connection are as they were. *)
Lemma deliver_text_effect m s s' :
  deliver_text m s = Some s' ->
  (proc (world s') = proc (world s)
   \/ exists data, proc (world s') = py_state (on_message data) (proc (world s)))
  /\ csv_file (world s') = csv_file (world s) /\ csv_writable (world s') = csv_writable (world s)
  /\ timers s' = timers s /\ clock s' = clock s /\ fired s' = fired s /\ conn s' = conn s.
Proof.
  unfold deliver_text, on_message_text.
  destruct (JsonDecode.loads m) as [[data|e]|]; intros H; [| |discriminate]; injection H as <-.
  - unfold py_bind, py_lift, py_state. cbv beta iota.
    destruct (on_message data (proc (world s))) as [[u|e] p'] eqn:E;
      (split; [right; exists data; rewrite E; reflexivity|repeat split]).
  - split; [left; reflexivity|repeat split].
Qed.

Section Step.
Context (report : string -> datetime -> Py World unit) `{!ReportContract report}.

(** A due timer [(t, l)] fires: it leaves the pending list and its report
    runs on the world. *)
Definition fire (pre post : list (Z * string)) (l : string) (now : datetime) (s : Sys) : Sys :=
  mkSys (py_state (report l now) (world s)) (pre ++ post)%list (clock s) (fired s ++ [l])%list
    (sent s) (conn s).

Inductive step : Sys -> Sys -> Prop :=
| step_open s : conn s = Connecting -> step s (on_open s)
| step_message s message s' : conn s = Open -> deliver_text message s = Some s' -> step s s'
| step_transport_error s msg : conn s <> Closed ->
    step s (let s' := sys_print msg s in
            mkSys (world s') (timers s') (clock s') (fired s') (sent s') Closed)
| step_close s : conn s = Open -> step s (on_close s)
| step_tick s : step s (tick_clock s)
| step_fire s pre t l post now :
    timers s = (pre ++ (t, l) :: post)%list -> (t <= clock s)%Z -> step s (fire pre post l now s).

(** The invariant of a run. *)
Definition sched_inv (s : Sys) : Prop :=
  acc_inv (proc (world s))
  /\ Permutation (map snd (timers s) ++ fired s)%list interval_labels
  /\ Forall (fun tl => In (snd tl, fst tl) intervals) (timers s)
  /\ (0 <= clock s)%Z
  /\ csv_writable (world s) = true
  /\ length (csv_file (world s)) = S (length (fired s)).

Lemma perm_fire (pre post : list (Z * string)) t l fired0 :
  Permutation (map snd (pre ++ post) ++ fired0 ++ [l])%list
              (map snd (pre ++ (t, l) :: post) ++ fired0)%list.
Proof.
  rewrite !map_app. cbn [map snd]. rewrite <- !app_assoc. apply Permutation_app_head.
  rewrite app_assoc. symmetry. apply Permutation_cons_append.
Qed.

Lemma step_preserves_inv s s' : sched_inv s -> step s s' -> sched_inv s'.
Proof.
  intros (Hacc & Hperm & Hdl & Hclk & Hw & Hlen) Hs.
  destruct Hs as [s _|s m s2 _ Hd|s msg _|s _|s|s pre t l post now Ht _];
    unfold sched_inv; cbn.
  - exact (conj Hacc (conj Hperm (conj Hdl (conj Hclk (conj Hw Hlen))))).
  - destruct (deliver_text_effect m s s2 Hd) as (Hp & Hcsv & Hwr & Ht & Hc & Hf & _).
    rewrite Hcsv, Hwr, Ht, Hc, Hf.
    refine (conj _ (conj Hperm (conj Hdl (conj Hclk (conj Hw Hlen))))).
    destruct Hp as [-> | [data ->]]; [exact Hacc|].
    destruct (on_message_state data (proc (world s))) as [[c [v ->]]| ->]; auto using tick_inv.
  - exact (conj Hacc (conj Hperm (conj Hdl (conj Hclk (conj Hw Hlen))))).
  - exact (conj Hacc (conj Hperm (conj Hdl (conj Hclk (conj Hw Hlen))))).
  - refine (conj Hacc (conj Hperm (conj Hdl (conj _ (conj Hw Hlen))))). lia.
  - rewrite Ht in Hperm, Hdl.
    rewrite report_keeps_proc, report_keeps_writable.
    destruct (report_row l now (world s) Hw) as (fields & _ & _ & ->).
    refine (conj Hacc (conj _ (conj _ (conj Hclk (conj Hw _))))).
    + eapply Permutation_trans; [apply perm_fire|exact Hperm].
    + apply Forall_app in Hdl as [H1 H2]. inversion H2; subst.
      apply Forall_app; auto.
    + rewrite !length_app, Hlen. cbn. lia.
Qed.

(** The system before [start_processing]: the world as the process finds
    it, no timer, the clock at zero, nothing fired or sent. *)
Definition sys0 (w0 : World) : Sys := mkSys w0 [] 0%Z [] [] Connecting.

(** The states of a run: [start_processing] from a fresh processor and a
    file that can be opened, then any sequence of steps. *)
Definition reachable (s : Sys) : Prop :=
  exists w0 now, proc w0 = init_processor /\ csv_writable w0 = true
  /\ star step (py_state (start_processing now) (sys0 w0)) s.

Ltac in_list := repeat (first [left; reflexivity | right]).

Lemma start_inv w0 now :
  proc w0 = init_processor -> csv_writable w0 = true ->
  sched_inv (py_state (start_processing now) (sys0 w0)).
Proof.
  destruct w0 as [p c f wr]. cbn. intros -> ->.
  unfold sched_inv, start_processing, write_header, start_timers, sys_print, set_world,
    py_state, py_bind, py_get, py_modify, sys0. cbn.
  refine (conj _ (conj _ (conj _ (conj _ (conj eq_refl eq_refl))))).
  - unfold acc_inv. cbn. repeat split; constructor.
  - apply Permutation_refl.
  - repeat (apply Forall_cons; [cbn; in_list|]). apply Forall_nil.
  - lia.
Qed.

Lemma reachable_sched_inv s : reachable s -> sched_inv s.
Proof.
  intros (w0 & now & Hp & Hw & Hrun).
  exact (star_invariant step sched_inv step_preserves_inv _ _ Hrun (start_inv w0 now Hp Hw)).
Qed.

(** The CSV file as a reader sees it: the header row, then one row of six
    fields per report that ran, whose [period] column is that report's
    label, in the order the reports ran. *)
Definition csv_rows_ok (s : Sys) : Prop :=
  exists rows, csv_file (world s) = map csv_line (header_row :: rows)
  /\ Forall (fun r => length r = 6%nat) rows
  /\ map (fun r => nth 1 r "") rows = fired s.

Lemma step_preserves_rows s s' : sched_inv s -> csv_rows_ok s -> step s s' -> csv_rows_ok s'.
Proof.
  intros (_ & _ & _ & _ & Hw & _) (rows & Hf & Hl & Hp) Hs.
  destruct Hs as [s _|s m s2 _ Hd|s msg _|s _|s|s pre t l post now _ _];
    try (exists rows; cbn; auto; fail).
  - destruct (deliver_text_effect m s s2 Hd) as (_ & Hcsv & _ & _ & _ & Hfd & _).
    exists rows. rewrite Hcsv, Hfd. auto.
  - destruct (report_row l now (world s) Hw) as (fields & Hlen & Hl1 & Hcsv).
    exists (rows ++ [fields])%list. cbn. rewrite Hcsv, Hf. repeat split.
    + rewrite map_app. reflexivity.
    + apply Forall_app. auto.
    + rewrite map_app, Hp. cbn. rewrite Hl1. reflexivity.
Qed.

Lemma start_rows w0 now :
  csv_writable w0 = true -> csv_rows_ok (py_state (start_processing now) (sys0 w0)).
Proof.
  destruct w0 as [p c f wr]. cbn. intros ->.
  exists []. split; [reflexivity|split; [constructor|reflexivity]].
Qed.

Lemma reachable_rows s : reachable s -> sched_inv s /\ csv_rows_ok s.
Proof.
  intros (w0 & now & Hp & Hw & Hrun).
  refine (star_invariant step (fun s => sched_inv s /\ csv_rows_ok s) _ _ _ Hrun _).
  - intros s1 s2 [Hi Hr] Hs. split; [exact (step_preserves_inv s1 s2 Hi Hs)|].
    exact (step_preserves_rows s1 s2 Hi Hr Hs).
  - split; [exact (start_inv w0 now Hp Hw)|exact (start_rows w0 now Hw)].
Qed.

(** C7: every reachable state satisfies the invariant of a run: the
    accumulator invariant, the pending timers and the fired labels are
    together the fourteen labels, each pending deadline is its label's
    delay, the clock is not negative, and the CSV file holds the header
    and one line per fired timer. *)
Theorem reachable_inv s : reachable s -> sched_inv s.
Proof. exact (reachable_sched_inv s). Qed.

(** C8: the CSV file of every reachable state is well formed: read back
    line by line with the reader of [Csv], it is the header row followed
    by one row of six fields per report that ran, whose [period] column
    is that report's label, in the order the reports ran. *)
Theorem csv_file_well_formed s :
  reachable s ->
  exists rows, map read_csv_line (csv_file (world s)) = map Some (header_row :: rows)
  /\ Forall (fun r => length r = 6%nat) rows
  /\ map (fun r => nth 1 r "") rows = fired s.
Proof.
  intros H. destruct (reachable_rows s H) as [_ (rows & Hf & Hl & Hp)].
  exists rows. split; [|auto]. rewrite Hf, map_map.
  apply map_ext_Forall. constructor.
  - apply read_csv_line_csv_line. discriminate.
  - eapply Forall_impl; [|exact Hl]. intros r Hr. apply read_csv_line_csv_line.
    intros ->. discriminate.
Qed.

Lemma interval_labels_nodup : NoDup interval_labels.
Proof. repeat constructor; cbn; intuition discriminate. Qed.

(** C11: each interval's report runs at most once in a run: the timers are
    one-shot and never rescheduled. *)
Theorem reports_at_most_once s : reachable s -> NoDup (fired s).
Proof.
  intros H. destruct (reachable_sched_inv s H) as (_ & Hperm & _).
  apply Permutation_sym in Hperm.
  pose proof (Permutation_NoDup Hperm interval_labels_nodup) as Hnd.
  exact (NoDup_app_remove_l _ _ Hnd).
Qed.

Lemma step_proc_grows s s' :
  step s s' ->
  prefix (bigTrade (proc (world s))) (bigTrade (proc (world s')))
  /\ prefix (smallTrade (proc (world s))) (smallTrade (proc (world s')))
  /\ prefix (price (proc (world s))) (price (proc (world s'))).
Proof.
  destruct 1 as [s _|s m s2 _ Hd|s msg _|s _|s|s pre t l post now _ _];
    try (cbn; repeat split; reflexivity).
  - destruct (deliver_text_effect m s s2 Hd) as ([-> | [data ->]] & _);
      [repeat split; reflexivity|].
    destruct (on_message_state data (proc (world s))) as [[c [v ->]]| ->];
      [apply tick_prefix|repeat split; reflexivity].
  - cbn. rewrite report_keeps_proc. repeat split; reflexivity.
Qed.

(** C12: the reports are cumulative: along any run the contents of
    [bigTrade], [smallTrade] and [price] a report reads are extended,
    never replaced, by the time of a later report; nothing resets them. *)
Theorem collections_grow s s' :
  star step s s' ->
  prefix (bigTrade (proc (world s))) (bigTrade (proc (world s')))
  /\ prefix (smallTrade (proc (world s))) (smallTrade (proc (world s')))
  /\ prefix (price (proc (world s))) (price (proc (world s'))).
Proof.
  induction 1 as [s|s1 s2 s3 H12 _ (IH1 & IH2 & IH3)]; [repeat split; reflexivity|].
  destruct (step_proc_grows _ _ H12) as (H1 & H2 & H3).
  repeat split; etransitivity; eauto.
Qed.

Lemma star_ticks s n :
  star step s (mkSys (world s) (timers s) (clock s + Z.of_nat n)%Z (fired s) (sent s) (conn s)).
Proof.
  induction n as [|n IH].
  - rewrite Z.add_0_r. destruct s. apply star_refl.
  - replace (clock s + Z.of_nat (S n))%Z with (clock s + Z.of_nat n + 1)%Z by lia.
    eapply star_trans; [exact IH|]. apply star_one. exact (step_tick _).
Qed.

Lemma fire_all (now : datetime) ts : forall s,
  timers s = ts -> Forall (fun tl => fst tl <= clock s)%Z ts ->
  exists s', star step s s' /\ timers s' = [] /\ fired s' = (fired s ++ map snd ts)%list
    /\ conn s' = conn s.
Proof.
  induction ts as [|[t l] ts IH]; intros s Hs Hd.
  - exists s. rewrite app_nil_r. repeat split; auto using star_refl.
  - inversion Hd as [|? ? Ht Hts]; subst.
    destruct (IH (fire [] ts l now s) eq_refl Hts) as (s' & Hrun & Ht' & Hf & Hc).
    exists s'. repeat split; auto.
    + eapply star_step; [|exact Hrun]. apply (step_fire s [] t l ts now); assumption.
    + rewrite Hf. cbn. rewrite <- app_assoc. reflexivity.
Qed.

Lemma intervals_le_280 l t : In (l, t) intervals -> (t <= 280)%Z.
Proof.
  intros H. cbn in H.
  repeat (destruct H as [H|H]; [inversion H; lia|]). contradiction.
Qed.

(** C6: liveness.  From every reachable state the run can go on (the
    clock passing 280 seconds) to a state where no timer is pending and
    the fourteen reports have all run, one per label. *)
Theorem all_reports_eventually s :
  reachable s ->
  exists s', star step s s' /\ timers s' = [] /\ Permutation (fired s') interval_labels.
Proof.
  intros H. destruct (reachable_sched_inv s H) as (_ & Hperm & Hdl & Hclk & _).
  set (s1 := mkSys (world s) (timers s) (clock s + Z.of_nat 280)%Z (fired s) (sent s) (conn s)).
  assert (Hdue : Forall (fun tl => fst tl <= clock s1)%Z (timers s1)).
  { cbn. eapply Forall_impl; [|exact Hdl]. intros [t l] Hin.
    cbn in Hin. apply intervals_le_280 in Hin. cbn. lia. }
  destruct (fire_all (mkDatetime 1 1 2000 0 0 0) (timers s1) s1 eq_refl Hdue)
    as (s' & Hrun & Ht & Hf & _).
  exists s'. repeat split; auto.
  - eapply star_trans; [apply star_ticks|exact Hrun].
  - rewrite Hf. cbn. eapply Permutation_trans; [apply Permutation_app_comm|exact Hperm].
Qed.

(** ** After the connection closed

    [ws.run_forever()] returns when the connection closes ([on_close]) or
    fails (a transport error); what keeps the process alive then is the
    timer threads that have not fired, which are not daemon threads. *)

Lemma closed_step_frozen s s' :
  conn s = Closed -> step s s' -> conn s' = Closed /\ proc (world s') = proc (world s).
Proof.
  intros Hc Hs.
  destruct Hs as [s Ho|s m s2 Ho _|s msg Ho|s Ho|s|s pre t l post now _ _];
    try (rewrite Hc in Ho; discriminate); try contradiction.
  - split; [exact Hc|reflexivity].
  - split; [exact Hc|apply report_keeps_proc].
Qed.

(** C10: once the connection is closed no message reaches [on_message]
    again: along every later run the connection stays closed and the
    timers report on a frozen accumulator. *)
Theorem frozen_after_close s s' :
  conn s = Closed -> star step s s' ->
  conn s' = Closed /\ proc (world s') = proc (world s).
Proof.
  intros Hc Hrun. induction Hrun as [s|s1 s2 s3 H12 _ IH]; [split; auto|].
  destruct (closed_step_frozen s1 s2 Hc H12) as [Hc2 Hp2].
  destruct (IH Hc2) as [Hc3 Hp3]. split; [exact Hc3|congruence].
Qed.

(** The closed program: a due timer fires, and time passes only while a
    timer waits for its deadline ([threading.Timer] fires when its delay
    has elapsed; once every timer has fired the process has exited). *)
Inductive closed_step : Sys -> Sys -> Prop :=
| closed_tick s : conn s = Closed -> Exists (fun tl => clock s < fst tl)%Z (timers s) ->
    closed_step s (tick_clock s)
| closed_fire s pre t l post now : conn s = Closed ->
    timers s = (pre ++ (t, l) :: post)%list -> (t <= clock s)%Z ->
    closed_step s (fire pre post l now s).

Lemma closed_step_step s s' : closed_step s s' -> step s s'.
Proof. destruct 1; [apply step_tick|eapply step_fire; eauto]. Qed.

(** The seconds the pending timers still wait, one more per timer. *)
Definition pending_time (s : Sys) : nat :=
  list_sum (map (fun tl => S (Z.to_nat (fst tl - clock s))) (timers s)).

Lemma pending_time_tick (ts : list (Z * string)) c :
  Exists (fun tl => c < fst tl)%Z ts ->
  (list_sum (map (fun tl => S (Z.to_nat (fst tl - (c + 1)))) ts)
   < list_sum (map (fun tl => S (Z.to_nat (fst tl - c))) ts))%nat.
Proof.
  assert (Hle : forall ts : list (Z * string),
    (list_sum (map (fun tl => S (Z.to_nat (fst tl - (c + 1)))) ts)
     <= list_sum (map (fun tl => S (Z.to_nat (fst tl - c))) ts))%nat).
  { unfold list_sum. induction ts0 as [|tl ts0 IH]; cbn; lia. }
  unfold list_sum in *.
  induction 1 as [tl ts Hlt|tl ts _ IH]; cbn; [specialize (Hle ts)|]; lia.
Qed.

Lemma closed_step_decreases s s' : closed_step s s' -> (pending_time s' < pending_time s)%nat.
Proof.
  destruct 1 as [s _ Hw|s pre t l post now _ Ht _]; unfold pending_time.
  - exact (pending_time_tick _ _ Hw).
  - cbn [fire timers clock]. rewrite Ht, !map_app, !list_sum_app.
    unfold list_sum. cbn [map fold_right]. lia.
Qed.

(** A closed program with a pending timer can go on. *)
Lemma closed_progress s :
  conn s = Closed -> timers s <> [] -> exists s', closed_step s s'.
Proof.
  intros Hc Hne. destruct (timers s) as [|[t l] post] eqn:Ht; [congruence|].
  destruct (Z.le_gt_cases t (clock s)) as [Hd|Hw].
  - exists (fire [] post l (mkDatetime 1 1 2000 0 0 0) s).
    apply (closed_fire s [] t l post); assumption.
  - exists (tick_clock s). apply closed_tick; [exact Hc|]. rewrite Ht. now constructor.
Qed.

Lemma closed_star_step s s' : star closed_step s s' -> star step s s'.
Proof. induction 1; eauto using star, closed_step_step. Qed.

Lemma closed_star_conn s s' : star closed_step s s' -> conn s' = conn s.
Proof. induction 1 as [|s1 s2 s3 H _ IH]; [reflexivity|]. rewrite IH. destruct H; reflexivity. Qed.

Lemma reachable_star s s' : reachable s -> star step s s' -> reachable s'.
Proof.
  intros (w0 & now & Hp & Hw & Hrun) H. exists w0, now. repeat split; auto.
  eapply star_trans; eauto.
Qed.

(** A closed program that cannot go on has no timer left. *)
Lemma closed_stuck_no_timer s :
  conn s = Closed -> (forall s', ~ closed_step s s') -> timers s = [].
Proof.
  intros Hc Hstuck. destruct (timers s) eqn:Ht; [reflexivity|].
  destruct (closed_progress s Hc) as [s' Hs]; [congruence|].
  destruct (Hstuck s' Hs).
Qed.

Lemma no_timer_stuck s : timers s = [] -> forall s', ~ closed_step s s'.
Proof.
  intros Ht s' H. inversion H as [s0 _ Hw|s0 pre t l post now _ Htm _]; subst.
  - rewrite Ht in Hw. inversion Hw.
  - rewrite Ht in Htm. destruct pre; discriminate.
Qed.

(** C9: the program after the connection closed terminates, and it ends
    with every report written: every run of the closed program is finite,
    and a run from a reachable state with the connection closed stops only
    where no timer is pending and the CSV file holds the header and one
    row per interval of the table of lines 17-32, every label once. *)
Theorem closed_program_terminates :
  well_founded (fun s' s => closed_step s s')
  /\ forall s s', reachable s -> conn s = Closed -> star closed_step s s' ->
       (forall s'', ~ closed_step s' s'') ->
       timers s' = []
       /\ exists rows, csv_file (world s') = map csv_line (header_row :: rows)
          /\ Permutation (map (fun r => nth 1 r "") rows) interval_labels.
Proof.
  split.
  - apply (wf_incl _ _ (ltof _ pending_time)); [|apply well_founded_ltof].
    intros s' s H. exact (closed_step_decreases s s' H).
  - intros s s' Hr Hc Hrun Hstuck.
    assert (Ht : timers s' = []).
    { apply closed_stuck_no_timer; [rewrite (closed_star_conn _ _ Hrun); exact Hc|exact Hstuck]. }
    destruct (reachable_rows s' (reachable_star s s' Hr (closed_star_step s s' Hrun)))
      as [(_ & Hperm & _) (rows & Hf & _ & Hl)].
    split; [exact Ht|]. exists rows. split; [exact Hf|].
    rewrite Hl. rewrite Ht in Hperm. exact Hperm.
Qed.

End Step.

(** ** The start of the program *)

(** C21: when the CSV file can be opened, [start_processing] leaves the
    file with its header line only and starts the fourteen timers, due
    20, 40, ..., 280 seconds after the start, the last one labelled
    ["30 d"] (the specification says the delays end at 260 seconds). *)
Theorem start_processing_timers w0 now :
  csv_writable w0 = true ->
  let s := py_state (start_processing now) (sys0 w0) in
  csv_file (world s) = [csv_line header_row]
  /\ timers s = [(20, "15 m"); (40, "30 m"); (60, "1 h"); (80, "4 h"); (100, "8 h");
                 (120, "12 h"); (140, "24 h"); (160, "2 d"); (180, "3 d"); (200, "5 d");
                 (220, "7 d"); (240, "10 d"); (260, "15 d"); (280, "30 d")]%Z.
Proof. destruct w0 as [p c f wr]. cbn. intros ->. split; reflexivity. Qed.

(** The world the process starts in, and a start time. *)
Definition w_start : World := mkWorld init_processor [] [] true.
Definition now0 : datetime := mkDatetime 11 9 2026 0 0 0.

Lemma start_processing_timers_witness :
  let s := py_state (start_processing now0) (sys0 w_start) in
  csv_file (world s) = [csv_line header_row]
  /\ timers s = [(20, "15 m"); (40, "30 m"); (60, "1 h"); (80, "4 h"); (100, "8 h");
                 (120, "12 h"); (140, "24 h"); (160, "2 d"); (180, "3 d"); (200, "5 d");
                 (220, "7 d"); (240, "10 d"); (260, "15 d"); (280, "30 d")]%Z.
Proof. apply start_processing_timers. reflexivity. Defined.

(** C22: when the CSV file cannot be opened, [start_processing] raises
    [OSError] before it prints anything or starts any timer. *)
Theorem start_processing_unwritable w0 now :
  csv_writable w0 = false ->
  start_processing now (sys0 w0) = (Raise (OSError "trade_data.csv"), sys0 w0).
Proof. destruct w0 as [p c f wr]. cbn. intros ->. reflexivity. Qed.

Lemma start_processing_unwritable_witness :
  start_processing now0 (sys0 (mkWorld init_processor [] [] false))
  = (Raise (OSError "trade_data.csv"), sys0 (mkWorld init_processor [] [] false)).
Proof. apply start_processing_unwritable. reflexivity. Defined.

(** The program as written: the scheduler's relation with the reporter
    of src/main.py. *)
Definition main_step : Sys -> Sys -> Prop := step calculate_and_display.

Definition start0 : Sys := py_state (start_processing now0) (sys0 w_start).

Lemma reachable_start0 : reachable calculate_and_display start0.
Proof.
  exists w_start, now0. split; [reflexivity|split; [reflexivity|apply star_refl]].
Defined.

Lemma reachable_inv_witness : sched_inv start0.
Proof. apply (reachable_inv calculate_and_display). exact reachable_start0. Defined.

(** The program 20 seconds after the start, when the timer ["15 m"] has
    fired. *)
Definition run1 : Sys :=
  fire calculate_and_display [] (tl (timers start0)) "15 m" now0
    (mkSys (world start0) (timers start0) (clock start0 + Z.of_nat 20) (fired start0)
       (sent start0) (conn start0)).

Lemma reachable_run1 : reachable calculate_and_display run1.
Proof.
  exists w_start, now0. split; [reflexivity|split; [reflexivity|]].
  eapply star_trans; [apply star_ticks|]. apply star_one.
  apply (step_fire calculate_and_display _ [] 20%Z "15 m"); reflexivity.
Defined.

Lemma csv_file_well_formed_witness :
  exists rows, map read_csv_line (csv_file (world run1)) = map Some (header_row :: rows)
  /\ Forall (fun r => length r = 6%nat) rows
  /\ map (fun r => nth 1 r "") rows = fired run1.
Proof. apply (csv_file_well_formed calculate_and_display). exact reachable_run1. Defined.

(** The program after it opened and closed the connection, one second
    later. *)
Lemma frozen_after_close_witness :
  conn (tick_clock (on_close (on_open start0))) = Closed
  /\ proc (world (tick_clock (on_close (on_open start0)))) = proc (world (on_close (on_open start0))).
Proof.
  apply (frozen_after_close calculate_and_display); [reflexivity|].
  apply star_one. apply step_tick.
Defined.

Lemma reports_at_most_once_witness : NoDup (fired start0).
Proof. apply (reports_at_most_once calculate_and_display). exact reachable_start0. Defined.

Lemma collections_grow_witness :
  prefix (bigTrade (proc (world start0))) (bigTrade (proc (world start0)))
  /\ prefix (smallTrade (proc (world start0))) (smallTrade (proc (world start0)))
  /\ prefix (price (proc (world start0))) (price (proc (world start0))).
Proof. apply (collections_grow calculate_and_display). apply star_refl. Defined.

Lemma all_reports_eventually_witness :
  exists s', star main_step start0 s' /\ timers s' = [] /\ Permutation (fired s') interval_labels.
Proof. apply (all_reports_eventually calculate_and_display). exact reachable_start0. Defined.

(** The program when the transport fails before the connection opened:
    [run_forever] returns at once and only the timers are left. *)
Definition closed0 : Sys :=
  let s' := sys_print "Connection refused" start0 in
  mkSys (world s') (timers s') (clock s') (fired s') (sent s') Closed.

Lemma reachable_closed0 : reachable calculate_and_display closed0.
Proof.
  exists w_start, now0. split; [reflexivity|split; [reflexivity|]].
  apply star_one. apply step_transport_error. discriminate.
Defined.

Lemma closed_program_terminates_witness :
  exists s, reachable calculate_and_display s /\ conn s = Closed
  /\ star (closed_step calculate_and_display) s s
  /\ (forall s'', ~ closed_step calculate_and_display s s'')
  /\ timers s = []
  /\ exists rows, csv_file (world s) = map csv_line (header_row :: rows)
     /\ Permutation (map (fun r => nth 1 r "") rows) interval_labels.
Proof.
  set (s1 := mkSys (world closed0) (timers closed0) (clock closed0 + Z.of_nat 280)%Z
               (fired closed0) (sent closed0) (conn closed0)).
  assert (Hdue : Forall (fun tl => fst tl <= clock s1)%Z (timers s1))
    by (vm_compute; repeat constructor; discriminate).
  destruct (fire_all calculate_and_display now0 (timers s1) s1 eq_refl Hdue)
    as (s' & Hrun & Ht & _ & Hc).
  assert (Hr : reachable calculate_and_display s').
  { eapply reachable_star; [exact reachable_closed0|].
    eapply star_trans; [apply star_ticks|exact Hrun]. }
  assert (Hcl : conn s' = Closed) by (rewrite Hc; reflexivity).
  pose proof (no_timer_stuck calculate_and_display s' Ht) as Hst.
  destruct (proj2 (closed_program_terminates calculate_and_display) s' s' Hr Hcl
              (star_refl _ s') Hst) as [_ Hrows].
  exists s'. repeat split; auto using star_refl.
Defined.




End Run.
